(** * Barbearia Lenhador: the theme store and the open/closed indicator

    A shallow embedding of [script.js]: the theme functions
    ([getSavedTheme], [applyTheme], [toggleTheme], the page-load
    initialisation and the colour-scheme listener) over an explicit browser
    state, and [updateOpenStatus] over a document whose elements are
    mutated in place and, inside the status indicator, removed.  Further on: the mobile menu and its listeners, the
    header's scroll throttle, and [highlightNavLink]. *)

From Stdlib Require Import QArith.
From stdpp Require Import gmap strings list fin_maps.

#[local] Set Warnings "-clear-no-such-hyp".

Local Open Scope Z_scope.
Local Open Scope string_scope.

(** ** JavaScript values the script relies on *)

(** A string is truthy unless it is empty; [null] is falsy.  Both
    [if (savedTheme)] and [!localStorage.getItem(THEME_KEY)] test the
    result of [getItem] this way. *)
Definition truthy (s : string) : bool :=
  match s with
  | EmptyString => false
  | String _ _ => true
  end.

Definition truthy_item (v : option string) : bool :=
  match v with
  | Some s => truthy s
  | None => false
  end.

(** ** Theme toggle *)

Module Theme.

Definition THEME_KEY : string := "barbearia-lenhador-theme".

(** What the theme code reads and writes: the origin's [localStorage]
    and the class list of [document.body]. *)
Record Browser := mkBrowser {
  localStorage : gmap string string;
  body_classList : gset string
}.

(** [window.matchMedia]: [None] when the host has no such function,
    otherwise [Some b] with [b] the [matches] flag of the query
    [(prefers-color-scheme: light)]. *)
Definition MatchMedia := option bool.

Definition getItem (key : string) (st : Browser) : option string :=
  localStorage st !! key.

Definition setItem (key value : string) (st : Browser) : Browser :=
  mkBrowser (<[key := value]> (localStorage st)) (body_classList st).

Definition classList_add (token : string) (st : Browser) : Browser :=
  mkBrowser (localStorage st) (body_classList st ∪ {[token]}).

Definition classList_remove (token : string) (st : Browser) : Browser :=
  mkBrowser (localStorage st) (body_classList st ∖ {[token]}).

Definition classList_contains (token : string) (st : Browser) : bool :=
  bool_decide (token ∈ body_classList st).

Definition prefers_light (mm : MatchMedia) : bool :=
  match mm with
  | Some matches => matches
  | None => false
  end.

Definition getSavedTheme (mm : MatchMedia) (st : Browser) : string :=
  match getItem THEME_KEY st with
  | Some savedTheme =>
      if truthy savedTheme then savedTheme
      else if prefers_light mm then "light" else "dark"
  | None => if prefers_light mm then "light" else "dark"
  end.

Definition applyTheme (theme : string) (st : Browser) : Browser :=
  let st' :=
    if String.eqb theme "light"
    then classList_add "light-mode" st
    else classList_remove "light-mode" st in
  setItem THEME_KEY theme st'.

Definition toggleTheme (st : Browser) : Browser :=
  let currentTheme :=
    if classList_contains "light-mode" st then "light" else "dark" in
  let newTheme :=
    if String.eqb currentTheme "light" then "dark" else "light" in
  applyTheme newTheme st.

(** [applyTheme(getSavedTheme())], run once when the script starts. *)
Definition initTheme (mm : MatchMedia) (st : Browser) : Browser :=
  applyTheme (getSavedTheme mm st) st.

(** The listener of the [change] event of the colour-scheme query;
    [matches] is [e.matches]. *)
Definition onSchemeChange (matches : bool) (st : Browser) : Browser :=
  if negb (truthy_item (getItem THEME_KEY st))
  then applyTheme (if matches then "light" else "dark") st
  else st.

(** Events the theme code listens to after start-up. *)
Inductive Event :=
| ThemeToggleClick
| SchemeChange (matches : bool).

Definition handle (ev : Event) (st : Browser) : Browser :=
  match ev with
  | ThemeToggleClick => toggleTheme st
  | SchemeChange matches => onSchemeChange matches st
  end.

(** Events are handled one at a time, in arrival order. *)
Fixpoint run (evs : list Event) (st : Browser) : Browser :=
  match evs with
  | [] => st
  | ev :: evs' => run evs' (handle ev st)
  end.

(** The applied preference is read off the visual flag. *)
Definition applied (st : Browser) : string :=
  if classList_contains "light-mode" st then "light" else "dark".

(** A truthy theme is stored: the state in which the colour-scheme
    listener does nothing. *)
Definition theme_stored (st : Browser) : Prop :=
  truthy_item (getItem THEME_KEY st) = true.

(** A browser with an empty store and an unstyled body. *)
Definition fresh : Browser := mkBrowser ∅ ∅.

End Theme.

(** ** Open/closed status indicator *)

Module OpenStatus.

(** The fields of [new Date()] that [updateOpenStatus] reads. *)
Record Date := mkDate {
  getDay : nat;      (* 0 = Sunday, 1 = Monday, ... *)
  getHours : Z;
  getMinutes : Z
}.

Record Interval := mkInterval {
  open : Z;
  close : Z
}.

(** The object literal [schedule]: a key bound to [None] is a day
    bound to [null]; a key that is not bound reads as [undefined]. *)
Definition schedule : gmap nat (option Interval) :=
  list_to_map
    [ (0%nat, None);                                 (* Sunday - closed *)
      (1%nat, None);                                 (* Monday - closed *)
      (2%nat, Some (mkInterval (9 * 60) (19 * 60))); (* Tuesday *)
      (3%nat, Some (mkInterval (9 * 60) (19 * 60))); (* Wednesday *)
      (4%nat, Some (mkInterval (9 * 60) (17 * 60))); (* Thursday *)
      (5%nat, Some (mkInterval (9 * 60) (19 * 60))); (* Friday *)
      (6%nat, Some (mkInterval (9 * 60) (17 * 60)))  (* Saturday *) ].

Definition currentTime (now : Date) : Z :=
  getHours now * 60 + getMinutes now.

(** The value of [isOpen] for the weekday [day] at [time] minutes
    since midnight. *)
Definition isOpen (day : nat) (time : Z) : bool :=
  match schedule !! day with
  | Some (Some todaySchedule) =>
      ((open todaySchedule <=? time) && (time <? close todaySchedule))%Z
  | Some None | None => false
  end.

(** Map JS day to list index (Sunday=6). *)
Definition dayMapping : list nat := [6; 0; 1; 2; 3; 4; 5]%nat.

(** The display index as the specification words it: Monday first. *)
Definition displayIndex_spec (weekday : nat) : nat :=
  ((weekday + 6) mod 7)%nat.

(** An element of the page: its class list, the text it holds, and how
    deep it lies in the tree.  The document lists its elements in tree
    order, so the elements inside an element are those that follow it for
    as long as they lie deeper than it. *)
Record Element := mkElement {
  classList : gset string;
  textContent : string;
  depth : nat
}.

Definition add (token : string) (e : Element) : Element :=
  mkElement (classList e ∪ {[token]}) (textContent e) (depth e).

Definition remove (token : string) (e : Element) : Element :=
  mkElement (classList e ∖ {[token]}) (textContent e) (depth e).

(** [classList.toggle(token, force)]. *)
Definition toggle (token : string) (force : bool) (e : Element) : Element :=
  if force then add token e else remove token e.

(** The text of an element replaced, the element staying where it is. *)
Definition set_text (text : string) (e : Element) : Element :=
  mkElement (classList e) text (depth e).

(** The document: its elements in tree order.  A position in the list
    names a node, so that a node reached through two queries is one
    object; the positions after a node shift when elements inside it are
    removed. *)
Abbreviation Document := (list Element).

Definition has_class (cls : string) (doc : Document) (node : nat) : bool :=
  match doc !! node with
  | Some e => bool_decide (cls ∈ classList e)
  | None => false
  end.

(** The elements lying deeper than [level] at the head of [following]
    are passed over. *)
Fixpoint skip_inside (level : nat) (following : Document) : Document :=
  match following with
  | [] => []
  | e :: rest =>
      if (level <? depth e)%nat then skip_inside level rest else following
  end.

(** [node.textContent = text]: the children of the node are removed and
    the text takes their place, so every element inside the node leaves
    the document. *)
Definition set_textContent (text : string) (node : nat) (doc : Document)
    : Document :=
  match doc !! node with
  | Some e =>
      take node doc
      ++ set_text text e :: skip_inside (depth e) (drop (S node) doc)
  | None => doc
  end.

(** [document.querySelectorAll('.cls')]: the matching nodes in
    document order. *)
Definition querySelectorAll (cls : string) (doc : Document) : list nat :=
  filter (λ node, has_class cls doc node = true) (seq 0 (length doc)).

(** [document.querySelector('.cls')]: the first match, or [null]. *)
Definition querySelector (cls : string) (doc : Document) : option nat :=
  head (querySelectorAll cls doc).

(** [nodes.forEach((item, index) => ...)] with the callback's effect on
    the document, the first index being [index]. *)
Fixpoint forEach_from (callback : nat → nat → Document → Document)
    (nodes : list nat) (index : nat) (doc : Document) : Document :=
  match nodes with
  | [] => doc
  | item :: rest =>
      forEach_from callback rest (S index) (callback item index doc)
  end.

Definition forEach (callback : nat → nat → Document → Document)
    (nodes : list nat) (doc : Document) : Document :=
  forEach_from callback nodes 0 doc.

(** What the three statements guarded by [if (statusIndicator)] make of
    the indicator itself. *)
Definition show_status (is_open : bool) (e : Element) : Element :=
  let e1 := toggle "open" is_open e in
  let e2 := toggle "closed" (negb is_open) e1 in
  set_text (if is_open then "Aberto agora" else "Fechado") e2.

(** The body of the [forEach] callback; [todayIndex] is [None] when
    [dayMapping[day]] is [undefined]. *)
Definition mark_row (todayIndex : option nat) (index : nat) (e : Element)
    : Element :=
  let e1 := remove "today" e in
  if bool_decide (Some index = todayIndex) then add "today" e1 else e1.

(** "Update UI if there's a status indicator". *)
Definition update_status_indicator (is_open : bool) (doc : Document)
    : Document :=
  match querySelector "status-indicator" doc with
  | Some statusIndicator =>
      let doc1 := alter (toggle "open" is_open) statusIndicator doc in
      let doc2 := alter (toggle "closed" (negb is_open)) statusIndicator doc1 in
      set_textContent (if is_open then "Aberto agora" else "Fechado")
                      statusIndicator doc2
  | None => doc
  end.

(** "Highlight today's hours in the schedule". *)
Definition highlight_today (day : nat) (doc : Document) : Document :=
  let hoursItems := querySelectorAll "hours-item" doc in
  let todayIndex := dayMapping !! day in
  forEach (λ item index, alter (mark_row todayIndex index) item)
          hoursItems doc.

Definition updateOpenStatus (now : Date) (doc : Document) : Document :=
  let day := getDay now in
  let is_open := isOpen day (currentTime now) in
  highlight_today day (update_status_indicator is_open doc).

(** The rows of the hours list that carry the 'today' mark. *)
Definition today_rows (doc : Document) : list nat :=
  filter (λ node, has_class "today" doc node = true)
         (querySelectorAll "hours-item" doc).

(** The element behind the status indicator, if the page has one. *)
Definition status_indicator (doc : Document) : option Element :=
  querySelector "status-indicator" doc ≫= λ node, doc !! node.

(** A function on elements that leaves the class [cls] as it is. *)
Definition keeps_class (cls : string) (f : Element → Element) : Prop :=
  ∀ e, cls ∈ classList (f e) ↔ cls ∈ classList e.

(** The document without the elements inside [node]. *)
Definition remove_inside (node : nat) (doc : Document) : Document :=
  match doc !! node with
  | Some e => take (S node) doc ++ skip_inside (depth e) (drop (S node) doc)
  | None => doc
  end.

(** The document without the elements inside the status indicator: the
    nodes that are left once the indicator's text has been set. *)
Definition strip_status (doc : Document) : Document :=
  match querySelector "status-indicator" doc with
  | Some statusIndicator => remove_inside statusIndicator doc
  | None => doc
  end.

(** The writes to the indicator's own classes and text, node for node. *)
Definition write_status (is_open : bool) (doc : Document) : Document :=
  match querySelector "status-indicator" doc with
  | Some statusIndicator => alter (show_status is_open) statusIndicator doc
  | None => doc
  end.

(** The writes of [updateOpenStatus] to the nodes that stay. *)
Definition refresh (now : Date) (doc : Document) : Document :=
  let day := getDay now in
  let is_open := isOpen day (currentTime now) in
  highlight_today day (write_status is_open doc).

(** Pages for the examples.  [sample_page]: a status indicator, then
    the hours list with its seven rows (Monday first), the fourth one
    still marked.  [nested_page]: a status indicator that holds the first
    of the seven rows. *)
Definition hours_row (marked : bool) (level : nat) : Element :=
  mkElement (if marked then {["hours-item"; "today"]} else {["hours-item"]})
            "" level.

Definition sample_page : Document :=
  mkElement {["status-indicator"; "open"]} "Aberto agora" 2
  :: mkElement {["hours-list"]} "" 1
  :: ((λ marked, hours_row marked 2)
      <$> [false; false; false; true; false; false; false]).

Definition nested_page : Document :=
  mkElement {["status-indicator"]} "" 1
  :: hours_row false 2
  :: ((λ marked, hours_row marked 1)
      <$> [false; false; true; false; false; false]).

End OpenStatus.

(** ** Theme across page loads *)

Module Session.

Import Theme.

(** A page load over what an earlier page left: [localStorage] outlives
    the page, the body starts again with the classes of the markup, and
    the script runs its initialisation. *)
Definition reload (markup : gset string) (mm : MatchMedia) (st : Browser)
    : Browser :=
  initTheme mm (mkBrowser (localStorage st) markup).

(** The stored theme and the visual flag say the same. *)
Definition in_sync (st : Browser) : Prop :=
  "light-mode" ∈ body_classList st ↔ getItem THEME_KEY st = Some "light".

End Session.

(** ** Mobile navigation *)

Module MobileNav.

(** What the menu code reads and writes.  [navMenu] is the class list of
    [#nav-menu], [None] when [getElementById] gave [null]; [navToggle]
    and [navClose] tell whether the buttons exist; [overflow] is
    [document.body.style.overflow]. *)
Record Page := mkPage {
  navMenu : option (gset string);
  navToggle : bool;
  navClose : bool;
  overflow : string
}.

(** A listener returns the page it leaves, or [None] when it throws a
    [TypeError] on a missing element.  Every such access comes before
    the listener's first write, so a listener that throws has changed
    nothing. *)
Definition openMenu (st : Page) : option Page :=
  match navMenu st with
  | Some classes =>
      Some (mkPage (Some (classes ∪ {["active"]})) (navToggle st)
                   (navClose st) "hidden")
  | None => None
  end.

Definition closeMenu (st : Page) : option Page :=
  match navMenu st with
  | Some classes =>
      Some (mkPage (Some (classes ∖ {["active"]})) (navToggle st)
                   (navClose st) "")
  | None => None
  end.

(** An element on the way of a click from its target up to the
    document, with what the script knows about it. *)
Record Node := mkNode {
  is_navToggle : bool;   (* the element with id nav-toggle *)
  is_navClose : bool;    (* the element with id nav-close *)
  is_navLink : bool;     (* has class nav-link *)
  is_navMenu : bool      (* the element with id nav-menu *)
}.

(** [element.contains(e.target)]: the element is the target or one of
    its ancestors, that is, it lies on the path. *)
Definition on_path (is_element : Node → bool) (path : list Node) : bool :=
  existsb is_element path.

(** An element that closes the menu when clicked: a nav link, or the
    close button when the page has one. *)
Definition closes (st : Page) (n : Node) : bool :=
  is_navLink n || (navClose st && is_navClose n).

(** The click listeners of an element, in the order the script adds
    them.  [closeMenu] is one function: an element that is the close
    button and a nav link at once holds it once. *)
Definition click_listeners (st : Page) (n : Node)
    : list (Page → option Page) :=
  (if navToggle st && is_navToggle n then [openMenu] else [])
  ++ (if closes st n then [closeMenu] else []).

(** "Close menu when clicking outside". *)
Definition onDocumentClick (path : list Node) (st : Page) : option Page :=
  match navMenu st with
  | None => None
  | Some classes =>
      if bool_decide ("active" ∈ classes) && negb (on_path is_navMenu path)
      then
        if navToggle st
        then if negb (on_path is_navToggle path) then closeMenu st else Some st
        else None
      else Some st
  end.

(** "Close menu on escape key". *)
Definition onKeydown (key : string) (st : Page) : option Page :=
  if String.eqb key "Escape"
  then match navMenu st with
       | None => None
       | Some classes =>
           if bool_decide ("active" ∈ classes) then closeMenu st else Some st
       end
  else Some st.

(** The page together with the number of errors no one caught. *)
Record Outcome := mkOutcome {
  page : Page;
  uncaught : nat
}.

(** A listener that throws ends, and the dispatch goes on with the next
    listener. *)
Definition invoke (listener : Page → option Page) (o : Outcome) : Outcome :=
  match listener (page o) with
  | Some st => mkOutcome st (uncaught o)
  | None => mkOutcome (page o) (S (uncaught o))
  end.

Definition invoke_all (listeners : list (Page → option Page)) (o : Outcome)
    : Outcome :=
  foldl (λ o listener, invoke listener o) o listeners.

(** A click bubbles from the target through its ancestors and reaches
    the document last. *)
Definition click (path : list Node) (o : Outcome) : Outcome :=
  invoke (onDocumentClick path)
         (invoke_all (path ≫= click_listeners (page o)) o).

Definition keydown (key : string) (o : Outcome) : Outcome :=
  invoke (onKeydown key) o.

Inductive Event :=
| Click (path : list Node)
| Keydown (key : string).

Definition handle (ev : Event) (o : Outcome) : Outcome :=
  match ev with
  | Click path => click path o
  | Keydown key => keydown key o
  end.

Definition run (evs : list Event) (o : Outcome) : Outcome :=
  foldl (λ o ev, handle ev o) o evs.

Definition is_active (st : Page) : bool :=
  match navMenu st with
  | Some classes => bool_decide ("active" ∈ classes)
  | None => false
  end.

(** Scrolling of the page is locked exactly while the menu is open. *)
Definition scroll_lock_ok (st : Page) : Prop :=
  is_active st = true ↔ overflow st = "hidden".

(** Elements for the examples. *)
Definition hamburger : Node := mkNode true false false false.
Definition menu_panel : Node := mkNode false false false true.
Definition menu_link : Node := mkNode false false true false.
Definition elsewhere : Node := mkNode false false false false.
Definition closed_page : Page := mkPage (Some {["nav-menu"]}) true true "".

End MobileNav.

(** ** Header scroll behaviour *)

Module HeaderScroll.

(** [scrollY] is [window.scrollY], a number of pixels that need not be
    whole; [header] is the class list of [#header], [None] when the
    element is missing; [frameRequests] counts the [updateHeader]
    callbacks waiting for the next animation frame. *)
Record Window := mkWindow {
  scrollY : Q;
  header : option (gset string);
  lastScrollY : Q;
  ticking : bool;
  frameRequests : nat
}.

(** [None]: a [TypeError] at [header.classList], before any write. *)
Definition updateHeader (w : Window) : option Window :=
  match header w with
  | None => None
  | Some classes =>
      let classes' :=
        if negb (Qle_bool (scrollY w) 50)      (* scrollY > 50 *)
        then classes ∪ {["scrolled"]}
        else classes ∖ {["scrolled"]} in
      Some (mkWindow (scrollY w) (Some classes') (scrollY w) false
                     (frameRequests w))
  end.

(** The scroll listener. *)
Definition onScroll (w : Window) : Window :=
  if negb (ticking w)
  then mkWindow (scrollY w) (header w) (lastScrollY w) true
                (S (frameRequests w))
  else w.

(** A callback that throws leaves the window as it found it. *)
Definition run_callback (w : Window) : Window :=
  default w (updateHeader w).

(** An animation frame runs the callbacks requested before it. *)
Definition animationFrame (w : Window) : Window :=
  Nat.iter (frameRequests w) run_callback
    (mkWindow (scrollY w) (header w) (lastScrollY w) (ticking w) 0).

Inductive Event :=
| ScrollTo (y : Q)       (* the page scrolls to [y], the scroll event fires *)
| AnimationFrame.

Definition handle (ev : Event) (w : Window) : Window :=
  match ev with
  | ScrollTo y =>
      onScroll (mkWindow y (header w) (lastScrollY w) (ticking w)
                         (frameRequests w))
  | AnimationFrame => animationFrame w
  end.

Definition run (evs : list Event) (w : Window) : Window :=
  foldl (λ w ev, handle ev w) w evs.

(** The window when the script starts: [lastScrollY = window.scrollY],
    [ticking = false], nothing requested. *)
Definition start (y : Q) (header : option (gset string)) : Window :=
  mkWindow y header y false 0.

Definition is_scrolled (w : Window) : bool :=
  match header w with
  | Some classes => bool_decide ("scrolled" ∈ classes)
  | None => false
  end.

End HeaderScroll.

(** ** Active navigation link *)

Module ActiveLink.

(** What [document.querySelector] does with the selector built from a
    section's id: it finds a link (its position among [navLinks]), finds
    none ([null]), or throws a [SyntaxError] because the id, spliced
    into the selector as it is, does not make a valid one. *)
Inductive Lookup :=
| Found (link : nat)
| NoMatch
| InvalidSelector.

(** A [section[id]] as [highlightNavLink] sees it: its offsets and the
    outcome of the lookup of its nav link. *)
Record SectionBox := mkSection {
  offsetTop : Z;
  offsetHeight : Z;
  navLink : Lookup
}.

(** The class lists of the [.nav-link] elements. *)
Abbreviation NavLinks := (list (gset string)).

(** The test of the inner [if]; [scrollY] is the local constant, the
    value of [window.scrollY + 100]. *)
Definition in_view (scrollY : Q) (s : SectionBox) : bool :=
  let sectionHeight := offsetHeight s in
  let sectionTop := (offsetTop s - 100)%Z in
  negb (Qle_bool scrollY (inject_Z sectionTop))
  && Qle_bool scrollY (inject_Z (sectionTop + sectionHeight)).

(** The callback of [sections.forEach]: the links as it leaves them, or
    [None] when the lookup throws, which it does before any class is
    touched. *)
Definition visit (scrollY : Q) (links : NavLinks) (s : SectionBox)
    : option NavLinks :=
  match navLink s with
  | InvalidSelector => None
  | Found link =>
      if in_view scrollY s
      then Some (alter (λ classes, classes ∪ {["active"]}) link
                       ((λ classes, classes ∖ {["active"]}) <$> links))
      else Some links
  | NoMatch => Some links
  end.

(** The links after a call, and whether the call ended in an uncaught
    [SyntaxError]. *)
Record Highlight := mkHighlight {
  links_after : NavLinks;
  syntax_error : bool
}.

(** [forEach] stops at the first callback that throws; the sections
    after it are not visited. *)
Fixpoint highlightNavLink (scrollY : Q) (sections : list SectionBox)
    (links : NavLinks) : Highlight :=
  match sections with
  | [] => mkHighlight links false
  | s :: rest =>
      match visit scrollY links s with
      | Some links' => highlightNavLink scrollY rest links'
      | None => mkHighlight links true
      end
  end.

(** The sections that are visited to the end: those before the first
    one whose lookup throws. *)
Fixpoint reached (sections : list SectionBox) : list SectionBox :=
  match sections with
  | [] => []
  | s :: rest =>
      match navLink s with
      | InvalidSelector => []
      | Found _ | NoMatch => s :: reached rest
      end
  end.

(** A visit that does not throw, on the links alone. *)
Definition visit_links (scrollY : Q) (links : NavLinks) (s : SectionBox)
    : NavLinks :=
  default links (visit scrollY links s).

Definition visit_all (scrollY : Q) (sections : list SectionBox)
    (links : NavLinks) : NavLinks :=
  foldl (visit_links scrollY) links sections.

(** The sections that reach the two class-list calls. *)
Definition current (scrollY : Q) (s : SectionBox) : bool :=
  match navLink s with
  | Found _ => in_view scrollY s
  | NoMatch | InvalidSelector => false
  end.

Definition is_active_link (links : NavLinks) (i : nat) : bool :=
  match links !! i with
  | Some classes => bool_decide ("active" ∈ classes)
  | None => false
  end.

(** The links that carry 'active', by position. *)
Definition active_links (links : NavLinks) : list nat :=
  filter (λ i, is_active_link links i = true) (seq 0 (length links)).

End ActiveLink.

Import Theme OpenStatus.

(** * Properties of the theme store *)

Section ThemeStore.

Implicit Types (st : Browser) (mm : MatchMedia) (theme : string).

Lemma getItem_setItem key value st :
  getItem key (setItem key value st) = Some value.
Proof. unfold getItem, setItem; simpl. apply lookup_insert_eq. Qed.

Lemma getItem_applyTheme theme st :
  getItem THEME_KEY (applyTheme theme st) = Some theme.
Proof. unfold applyTheme. apply getItem_setItem. Qed.

Lemma body_applyTheme_light st :
  body_classList (applyTheme "light" st) = body_classList st ∪ {["light-mode"]}.
Proof. reflexivity. Qed.

Lemma body_applyTheme_dark st :
  body_classList (applyTheme "dark" st) = body_classList st ∖ {["light-mode"]}.
Proof. reflexivity. Qed.

Lemma body_toggleTheme st :
  body_classList (toggleTheme st) =
    if decide ("light-mode" ∈ body_classList st)
    then body_classList st ∖ {["light-mode"]}
    else body_classList st ∪ {["light-mode"]}.
Proof.
  unfold toggleTheme, classList_contains.
  case_bool_decide; case_decide; done.
Qed.

(** Whatever [getSavedTheme] returns is a non-empty string. *)
Lemma getSavedTheme_truthy mm st : truthy (getSavedTheme mm st) = true.
Proof.
  unfold getSavedTheme.
  destruct (getItem THEME_KEY st) as [v|]; [destruct (truthy v) eqn:Hv|];
    try done; by destruct (prefers_light mm).
Qed.

Lemma theme_stored_init mm st : theme_stored (initTheme mm st).
Proof.
  unfold theme_stored, initTheme. rewrite getItem_applyTheme. simpl.
  apply getSavedTheme_truthy.
Qed.

Lemma theme_stored_toggle st : theme_stored (toggleTheme st).
Proof.
  unfold theme_stored, toggleTheme. rewrite getItem_applyTheme.
  by destruct (classList_contains "light-mode" st).
Qed.

Lemma onSchemeChange_stored matches st :
  theme_stored st → onSchemeChange matches st = st.
Proof. unfold theme_stored, onSchemeChange. by intros ->. Qed.

Lemma theme_stored_handle ev st : theme_stored st → theme_stored (handle ev st).
Proof.
  intros Hst. destruct ev as [|matches]; simpl.
  - apply theme_stored_toggle.
  - by rewrite onSchemeChange_stored.
Qed.

Lemma theme_stored_run evs st : theme_stored st → theme_stored (run evs st).
Proof.
  revert st. induction evs as [|ev evs IH]; intros st Hst; simpl; [done|].
  by apply IH, theme_stored_handle.
Qed.

Lemma theme_stored_is_Some st :
  theme_stored st → is_Some (getItem THEME_KEY st).
Proof.
  unfold theme_stored. destruct (getItem THEME_KEY st); [eauto | done].
Qed.

(** Once the page has loaded, a run of colour-scheme notifications
    alone changes nothing. *)
Lemma scheme_changes_after_load_ignored mm st (signals : list bool) :
  run (SchemeChange <$> signals) (initTheme mm st) = initTheme mm st.
Proof.
  generalize (theme_stored_init mm st). generalize (initTheme mm st) as s.
  induction signals as [|b signals IH]; intros s Hs; simpl; [done|].
  rewrite onSchemeChange_stored by done. by apply IH.
Qed.

(** C2, on the code: the colour-scheme listener does not follow the OS
    signal of a user who never chose a theme.  From an empty store and a
    dark OS signal, page load stores "dark"; the later change of the OS
    signal to light is then dropped, the store and the body being left as
    they were and the applied theme still dark. *)
Theorem scheme_change_dropped_after_load :
  let loaded := initTheme (Some false) fresh in
  getItem THEME_KEY fresh = None
  ∧ getItem THEME_KEY loaded = Some "dark"
  ∧ onSchemeChange true loaded = loaded
  ∧ applied (onSchemeChange true loaded) = "dark".
Proof.
  cbv zeta. split; [done|]. split; [apply getItem_applyTheme|].
  rewrite (onSchemeChange_stored true) by apply theme_stored_init.
  split; [done|]. by vm_compute.
Qed.

(** The listener taken alone, on a store that was emptied after load:
    the first notification is applied and stored, so the next one is
    dropped as well. *)
Lemma scheme_change_applied_once matches matches' st :
  truthy_item (getItem THEME_KEY st) = false →
  onSchemeChange matches st = applyTheme (if matches then "light" else "dark") st
  ∧ onSchemeChange matches' (onSchemeChange matches st)
    = onSchemeChange matches st.
Proof.
  intros Hno. assert (Hfst : onSchemeChange matches st
    = applyTheme (if matches then "light" else "dark") st).
  { unfold onSchemeChange. by rewrite Hno. }
  split; [done|]. rewrite Hfst. apply onSchemeChange_stored.
  unfold theme_stored. rewrite getItem_applyTheme. by destruct matches.
Qed.

(** C5: [applyTheme('light')] followed by [getSavedTheme()] gives
    'light', whatever the OS colour-scheme signal is (absent, dark or
    light) and whatever the state before the write. *)
Theorem write_light_then_read mm st :
  getSavedTheme mm (applyTheme "light" st) = "light".
Proof. unfold getSavedTheme. by rewrite getItem_applyTheme. Qed.

(** C6: two calls of [toggleTheme] in a row restore the applied
    preference, and with it the whole class list of the body, whether
    the light-mode flag was set at the start or not. *)
Theorem toggleTheme_twice st :
  applied (toggleTheme (toggleTheme st)) = applied st
  ∧ body_classList (toggleTheme (toggleTheme st)) = body_classList st.
Proof.
  assert (Hbody :
    body_classList (toggleTheme (toggleTheme st)) = body_classList st).
  { rewrite !body_toggleTheme. repeat case_decide; apply set_eq; intros x;
      destruct (decide (x = "light-mode")) as [->|]; set_solver. }
  split; [|done]. unfold applied, classList_contains. by rewrite Hbody.
Qed.

(** C7: [getSavedTheme] returns the stored theme when one is stored (a
    non-empty string, as every theme is); with nothing stored it returns
    'light' when [matchMedia] exists and reports a match for the light
    scheme, and 'dark' when [matchMedia] is missing or reports no match. *)
Theorem getSavedTheme_cases mm st :
  (∀ savedTheme, getItem THEME_KEY st = Some savedTheme →
     savedTheme ≠ "" → getSavedTheme mm st = savedTheme)
  ∧ (getItem THEME_KEY st = None → mm = Some true →
     getSavedTheme mm st = "light")
  ∧ (getItem THEME_KEY st = None → mm = None ∨ mm = Some false →
     getSavedTheme mm st = "dark").
Proof.
  unfold getSavedTheme. split; [|split].
  - intros v -> Hv. by destruct v.
  - by intros -> ->.
  - by intros -> [-> | ->].
Qed.

Lemma getSavedTheme_cases_witness :
  getSavedTheme (Some true) (applyTheme "dark" fresh) = "dark"
  ∧ getSavedTheme (Some true) fresh = "light"
  ∧ getSavedTheme None fresh = "dark".
Proof.
  split; [|split].
  - apply (proj1 (getSavedTheme_cases (Some true) (applyTheme "dark" fresh))).
    + apply getItem_applyTheme.
    + discriminate.
  - apply (proj1 (proj2 (getSavedTheme_cases (Some true) fresh)));
      reflexivity.
  - apply (proj2 (proj2 (getSavedTheme_cases None fresh)));
      [reflexivity | left; reflexivity].
Defined.

(** An empty stored string counts as nothing stored. *)
Lemma getSavedTheme_empty_string mm st :
  getItem THEME_KEY st = Some "" →
  getSavedTheme mm st = if prefers_light mm then "light" else "dark".
Proof. unfold getSavedTheme. by intros ->. Qed.

(** C10: every call of [applyTheme] stores its argument under the theme
    key; the initialisation at page load is such a call, so the key is
    present after it, also from an empty store, and stays present
    through every later click and colour-scheme notification. *)
Theorem theme_key_present_after_load mm st :
  (∀ theme st0, getItem THEME_KEY (applyTheme theme st0) = Some theme)
  ∧ getItem THEME_KEY (initTheme mm st) = Some (getSavedTheme mm st)
  ∧ is_Some (getItem THEME_KEY (initTheme mm fresh))
  ∧ (∀ evs, is_Some (getItem THEME_KEY (run evs (initTheme mm st)))).
Proof.
  split; [apply getItem_applyTheme|]. split; [apply getItem_applyTheme|].
  split.
  - apply theme_stored_is_Some, theme_stored_init.
  - intros evs. apply theme_stored_is_Some, theme_stored_run,
      theme_stored_init.
Qed.

End ThemeStore.

(** * Properties of the schedule evaluator *)

Section Schedule.

Implicit Types (day : nat) (time : Z) (iv : Interval).

(** The bound entries of [schedule], one by one. *)
Lemma schedule_lookup_Some day (entry : option Interval) :
  schedule !! day = Some entry →
  (day = 0%nat ∧ entry = None) ∨ (day = 1%nat ∧ entry = None)
  ∨ (day = 2%nat ∧ entry = Some (mkInterval 540 1140))
  ∨ (day = 3%nat ∧ entry = Some (mkInterval 540 1140))
  ∨ (day = 4%nat ∧ entry = Some (mkInterval 540 1020))
  ∨ (day = 5%nat ∧ entry = Some (mkInterval 540 1140))
  ∨ (day = 6%nat ∧ entry = Some (mkInterval 540 1020)).
Proof.
  intros Hday. apply elem_of_list_to_map_2 in Hday.
  repeat (apply elem_of_cons in Hday as [Heq | Hday];
          [injection Heq as -> ->; naive_solver|]).
  by apply elem_of_nil in Hday.
Qed.

Lemma isOpen_interval day iv time :
  schedule !! day = Some (Some iv) →
  isOpen day time = true ↔ open iv ≤ time < close iv.
Proof. unfold isOpen. intros ->. lia. Qed.

Lemma isOpen_no_interval day time :
  schedule !! day = Some None ∨ schedule !! day = None →
  isOpen day time = false.
Proof. unfold isOpen. by intros [-> | ->]. Qed.

(** C1: [isOpen] is true exactly when the weekday's entry of [schedule]
    is an interval (not [null]) and [open <= now < close]; at
    [now = open] the result is open, at [now = close] it is closed.  This
    holds for every weekday and every time, so in particular for
    weekdays 0-6 and times 0-1439. *)
Theorem isOpen_iff_within_interval day time :
  (isOpen day time = true ↔
     ∃ iv, schedule !! day = Some (Some iv) ∧ open iv ≤ time < close iv)
  ∧ (∀ iv, schedule !! day = Some (Some iv) →
       isOpen day (open iv) = true ∧ isOpen day (close iv) = false).
Proof.
  split.
  - split.
    + intros Hopen. unfold isOpen in Hopen.
      destruct (schedule !! day) as [[iv|]|] eqn:Hday; try done.
      exists iv. split; [done | lia].
    + intros (iv & Hday & Hin). by apply (isOpen_interval day iv).
  - intros iv Hday.
    assert (open iv < close iv) as Hlt.
    { apply schedule_lookup_Some in Hday.
      destruct Hday as [[_ ?]|[[_ ?]|[[_ ?]|[[_ ?]|[[_ ?]|[[_ ?]|[_ ?]]]]]]];
        simplify_eq; simpl; lia. }
    split.
    + apply (isOpen_interval day iv); [done | lia].
    + apply not_true_is_false. rewrite (isOpen_interval day iv) by done. lia.
Qed.

Lemma isOpen_iff_within_interval_witness :
  isOpen 4 (open (mkInterval 540 1020)) = true
  ∧ isOpen 4 (close (mkInterval 540 1020)) = false.
Proof.
  apply (proj2 (isOpen_iff_within_interval 4 0) (mkInterval 540 1020)).
  vm_compute. reflexivity.
Defined.

(** C3: the table [schedule] binds Sunday and Monday to [null],
    Tuesday, Wednesday and Friday to 540-1140, Thursday and Saturday to
    540-1020, and nothing else; so [isOpen] is false at every time on
    weekdays 0 and 1. *)
Theorem schedule_table :
  schedule !! 0%nat = Some None
  ∧ schedule !! 1%nat = Some None
  ∧ schedule !! 2%nat = Some (Some (mkInterval 540 1140))
  ∧ schedule !! 3%nat = Some (Some (mkInterval 540 1140))
  ∧ schedule !! 4%nat = Some (Some (mkInterval 540 1020))
  ∧ schedule !! 5%nat = Some (Some (mkInterval 540 1140))
  ∧ schedule !! 6%nat = Some (Some (mkInterval 540 1020))
  ∧ (∀ time, isOpen 0 time = false ∧ isOpen 1 time = false).
Proof.
  do 7 (split; [by vm_compute|]).
  intros time. split; apply isOpen_no_interval; left; by vm_compute.
Qed.

(** C4: for every weekday 0-6 the table [dayMapping] gives
    [(weekday + 6) % 7]; the mapping sends 0-6 into 0-6, is injective
    and reaches every index 0-6; Monday (1) goes to 0 and Sunday (0)
    to 6. *)
Theorem dayMapping_is_displayIndex :
  (∀ day, (day < 7)%nat → dayMapping !! day = Some (displayIndex_spec day))
  ∧ (∀ day, (day < 7)%nat → (displayIndex_spec day < 7)%nat)
  ∧ (∀ day day' index,
       dayMapping !! day = Some index → dayMapping !! day' = Some index →
       day = day')
  ∧ (∀ index, (index < 7)%nat →
       ∃ day, (day < 7)%nat ∧ dayMapping !! day = Some index)
  ∧ dayMapping !! 1%nat = Some 0%nat
  ∧ dayMapping !! 0%nat = Some 6%nat.
Proof.
  split; [|split; [|split; [|split; [|done]]]].
  - intros day Hday. do 7 (destruct day as [|day]; [done|]). lia.
  - intros day _. unfold displayIndex_spec. apply Nat.mod_upper_bound. lia.
  - intros day day' index Hd Hd'.
    do 7 (destruct day as [|day];
          [do 7 (destruct day' as [|day']; [by simplify_eq/=|]);
           by simplify_eq/=|]).
    by simplify_eq/=.
  - intros index Hindex.
    destruct index as [|[|[|[|[|[|[|index]]]]]]]; [ | | | | | | | lia].
    + exists 1%nat. split; [lia | done].
    + exists 2%nat. split; [lia | done].
    + exists 3%nat. split; [lia | done].
    + exists 4%nat. split; [lia | done].
    + exists 5%nat. split; [lia | done].
    + exists 6%nat. split; [lia | done].
    + exists 0%nat. split; [lia | done].
Qed.

Lemma dayMapping_is_displayIndex_witness :
  dayMapping !! 3%nat = Some (displayIndex_spec 3)
  ∧ (displayIndex_spec 3 < 7)%nat
  ∧ 3%nat = 3%nat
  ∧ ∃ day, (day < 7)%nat ∧ dayMapping !! day = Some 2%nat.
Proof.
  split; [|split; [|split]].
  - apply (proj1 dayMapping_is_displayIndex 3%nat). lia.
  - apply (proj1 (proj2 dayMapping_is_displayIndex) 3%nat). lia.
  - apply (proj1 (proj2 (proj2 dayMapping_is_displayIndex)) 3%nat 3%nat 2%nat);
      reflexivity.
  - apply (proj1 (proj2 (proj2 (proj2 dayMapping_is_displayIndex))) 2%nat).
    lia.
Defined.

(** The opening hours at the edges of Tuesday and Thursday. *)
Example thursday_1659_open : isOpen 4 (16 * 60 + 59) = true.
Proof. by vm_compute. Qed.

Example thursday_1700_closed : isOpen 4 (17 * 60) = false.
Proof. by vm_compute. Qed.

Example tuesday_edges :
  isOpen 2 (9 * 60) = true ∧ isOpen 2 (8 * 60 + 59) = false
  ∧ isOpen 2 (18 * 60 + 59) = true ∧ isOpen 2 (19 * 60) = false.
Proof. by vm_compute. Qed.

(** A weekday the table does not bind is closed all day. *)
Lemma isOpen_unbound day time : (7 ≤ day)%nat → isOpen day time = false.
Proof.
  intros Hday. apply isOpen_no_interval.
  destruct (schedule !! day) as [entry|] eqn:Hentry; [|by right].
  apply schedule_lookup_Some in Hentry. lia.
Qed.

Lemma dayMapping_lookup_lt day index :
  dayMapping !! day = Some index → (day < 7)%nat ∧ (index < 7)%nat.
Proof.
  intros Hd. do 7 (destruct day as [|day]; [simplify_eq/=; lia|]). done.
Qed.

End Schedule.

(** * Properties of the page update *)

Section Page.

Implicit Types (doc : Document) (e : Element) (cls : string)
  (node index day : nat) (nodes : list nat).

(** ** Elements *)

Lemma element_eq e e' :
  classList e = classList e' → textContent e = textContent e' →
  depth e = depth e' → e = e'.
Proof. destruct e, e'; simpl. by intros -> -> ->. Qed.

Lemma depth_show_status is_open e : depth (show_status is_open e) = depth e.
Proof. unfold show_status, toggle. by destruct is_open. Qed.

Lemma depth_mark_row todayIndex index e :
  depth (mark_row todayIndex index e) = depth e.
Proof. unfold mark_row. by case_bool_decide. Qed.

Lemma show_status_keeps cls is_open :
  cls ≠ "open" → cls ≠ "closed" → keeps_class cls (show_status is_open).
Proof.
  intros ?? e. unfold show_status, toggle, add, remove.
  destruct is_open; simpl; set_solver.
Qed.

Lemma mark_row_keeps cls todayIndex index :
  cls ≠ "today" → keeps_class cls (mark_row todayIndex index).
Proof.
  intros ? e. unfold mark_row, add, remove.
  case_bool_decide; simpl; set_solver.
Qed.

Lemma mark_row_today todayIndex index e :
  "today" ∈ classList (mark_row todayIndex index e) ↔ Some index = todayIndex.
Proof.
  unfold mark_row, add, remove. case_bool_decide; simpl; set_solver.
Qed.

Lemma show_status_idemp is_open e :
  show_status is_open (show_status is_open e) = show_status is_open e.
Proof.
  apply element_eq; [|done|by rewrite !depth_show_status].
  unfold show_status, toggle, add, remove.
  destruct is_open; simpl; set_solver.
Qed.

Lemma mark_row_idemp todayIndex index e :
  mark_row todayIndex index (mark_row todayIndex index e)
  = mark_row todayIndex index e.
Proof.
  apply element_eq.
  - unfold mark_row, add, remove. case_bool_decide; simpl; set_solver.
  - unfold mark_row. by case_bool_decide.
  - by rewrite !depth_mark_row.
Qed.

Lemma show_status_mark_row is_open todayIndex index e :
  show_status is_open (mark_row todayIndex index e)
  = mark_row todayIndex index (show_status is_open e).
Proof.
  apply element_eq.
  - unfold show_status, mark_row, toggle, add, remove.
    destruct is_open; case_bool_decide; simpl; set_solver.
  - unfold show_status, mark_row, toggle. by case_bool_decide.
  - by rewrite !depth_show_status, !depth_mark_row, !depth_show_status.
Qed.

(** ** Queries *)

Lemma has_class_true cls doc node :
  has_class cls doc node = true ↔
  ∃ e, doc !! node = Some e ∧ cls ∈ classList e.
Proof.
  unfold has_class. destruct (doc !! node) as [e|]; [|naive_solver].
  rewrite bool_decide_eq_true. naive_solver.
Qed.

Lemma elem_of_querySelectorAll cls doc node :
  node ∈ querySelectorAll cls doc ↔ has_class cls doc node = true.
Proof.
  unfold querySelectorAll. rewrite list_elem_of_filter, elem_of_seq.
  split; [by intros [? _]|]. intros Hcls. split; [done|].
  apply has_class_true in Hcls as (e & He & _).
  apply lookup_lt_Some in He. lia.
Qed.

Lemma NoDup_querySelectorAll cls doc : NoDup (querySelectorAll cls doc).
Proof. apply NoDup_filter, NoDup_seq. Qed.

Lemma querySelectorAll_lookup cls doc index node :
  querySelectorAll cls doc !! index = Some node →
  ∃ e, doc !! node = Some e ∧ cls ∈ classList e.
Proof.
  intros Hnode. apply has_class_true, elem_of_querySelectorAll.
  apply list_elem_of_lookup. by exists index.
Qed.

(** Two documents of one length whose nodes agree on the class [cls]
    answer the queries for [cls] alike. *)
Lemma querySelectorAll_ext cls doc doc' :
  length doc' = length doc →
  (∀ node, has_class cls doc' node = has_class cls doc node) →
  querySelectorAll cls doc' = querySelectorAll cls doc.
Proof.
  intros Hlen Hcls. unfold querySelectorAll. rewrite Hlen.
  apply list_filter_iff. intros node. by rewrite Hcls.
Qed.

Lemma has_class_fmap cls (f : Element → Element) doc doc' node :
  keeps_class cls f → doc' !! node = f <$> doc !! node →
  has_class cls doc' node = has_class cls doc node.
Proof.
  intros Hf Hnode. unfold has_class. rewrite Hnode.
  destruct (doc !! node) as [e|]; simpl; [|done].
  apply bool_decide_ext, Hf.
Qed.

(** ** forEach over nodes, altering the document *)

Section ForEach.

Variable f : nat → Element → Element.

Local Abbreviation callback := (λ item index : nat, alter (f index) item).

Lemma length_forEach_from nodes index doc :
  length (forEach_from callback nodes index doc) = length doc.
Proof.
  revert index doc. induction nodes as [|item nodes IH]; intros; simpl;
    [done|]. rewrite IH. apply length_alter.
Qed.

Lemma forEach_from_lookup_notin nodes index doc node :
  node ∉ nodes →
  forEach_from callback nodes index doc !! node = doc !! node.
Proof.
  revert index doc. induction nodes as [|item nodes IH];
    intros index doc Hnotin; simpl; [done|].
  apply not_elem_of_cons in Hnotin as [Hne Hnotin].
  rewrite IH by done. by apply list_lookup_alter_ne.
Qed.

Lemma forEach_from_lookup_at nodes index doc j node :
  NoDup nodes → nodes !! j = Some node →
  forEach_from callback nodes index doc !! node
  = f (index + j) <$> doc !! node.
Proof.
  revert index doc j. induction nodes as [|item nodes IH];
    intros index doc j Hnodup Hj; [done|].
  apply NoDup_cons in Hnodup as [Hitem Hnodup].
  destruct j as [|j]; simpl in *.
  - injection Hj as ->. rewrite forEach_from_lookup_notin by done.
    rewrite list_lookup_alter_eq.
    by replace (index + 0)%nat with index by lia.
  - rewrite (IH _ _ j) by done.
    rewrite list_lookup_alter_ne.
    + by replace (S index + j)%nat with (index + S j)%nat by lia.
    + intros ->. apply Hitem, list_elem_of_lookup. by exists j.
Qed.

End ForEach.

(** ** The writes in place, node by node *)

Lemma length_write_status is_open doc :
  length (write_status is_open doc) = length doc.
Proof.
  unfold write_status.
  destruct (querySelector "status-indicator" doc); [apply length_alter|done].
Qed.

Lemma write_status_lookup is_open doc node :
  write_status is_open doc !! node
  = (if decide (querySelector "status-indicator" doc = Some node)
     then show_status is_open else id) <$> doc !! node.
Proof.
  unfold write_status.
  destruct (querySelector "status-indicator" doc) as [si|]; case_decide;
    simplify_eq.
  - apply list_lookup_alter_eq.
  - rewrite list_lookup_alter_ne by congruence. by rewrite option_fmap_id.
  - by rewrite option_fmap_id.
Qed.

Lemma length_highlight_today day doc :
  length (highlight_today day doc) = length doc.
Proof. apply length_forEach_from. Qed.

Lemma highlight_today_lookup_row day doc index node :
  querySelectorAll "hours-item" doc !! index = Some node →
  highlight_today day doc !! node
  = mark_row (dayMapping !! day) index <$> doc !! node.
Proof.
  intros Hrow. unfold highlight_today, forEach.
  by rewrite (forEach_from_lookup_at (mark_row (dayMapping !! day)) _ 0 _ index)
    by (done || apply NoDup_querySelectorAll).
Qed.

Lemma highlight_today_lookup_other day doc node :
  node ∉ querySelectorAll "hours-item" doc →
  highlight_today day doc !! node = doc !! node.
Proof.
  intros Hrow. unfold highlight_today, forEach.
  by apply (forEach_from_lookup_notin (mark_row (dayMapping !! day))).
Qed.

(** Neither step changes what a query finds, as long as the query is
    not about the classes the step sets. *)
Lemma querySelectorAll_write_status cls is_open doc :
  cls ≠ "open" → cls ≠ "closed" →
  querySelectorAll cls (write_status is_open doc)
  = querySelectorAll cls doc.
Proof.
  intros ??. apply querySelectorAll_ext;
    [apply length_write_status|].
  intros node. case (decide (querySelector "status-indicator" doc = Some node))
    as [Hsi|Hsi].
  - apply (has_class_fmap cls (show_status is_open));
      [by apply show_status_keeps|].
    rewrite write_status_lookup. by rewrite decide_True.
  - apply (has_class_fmap cls id); [done|].
    rewrite write_status_lookup. by rewrite decide_False.
Qed.

Lemma querySelectorAll_highlight_today cls day doc :
  cls ≠ "today" →
  querySelectorAll cls (highlight_today day doc) = querySelectorAll cls doc.
Proof.
  intros ?. apply querySelectorAll_ext; [apply length_highlight_today|].
  intros node.
  destruct (decide (node ∈ querySelectorAll "hours-item" doc)) as [Hrow|Hrow].
  - apply list_elem_of_lookup in Hrow as [index Hrow].
    apply (has_class_fmap cls (mark_row (dayMapping !! day) index));
      [by apply mark_row_keeps|].
    by apply highlight_today_lookup_row.
  - apply (has_class_fmap cls id); [done|].
    rewrite highlight_today_lookup_other by done. by rewrite option_fmap_id.
Qed.

Lemma querySelectorAll_refresh cls now doc :
  cls ≠ "open" → cls ≠ "closed" → cls ≠ "today" →
  querySelectorAll cls (refresh now doc) = querySelectorAll cls doc.
Proof.
  intros ???. unfold refresh.
  rewrite querySelectorAll_highlight_today by done.
  by apply querySelectorAll_write_status.
Qed.

(** ** Running a step again, and swapping the steps *)

Lemma querySelector_write_status cls is_open doc :
  cls ≠ "open" → cls ≠ "closed" →
  querySelector cls (write_status is_open doc)
  = querySelector cls doc.
Proof.
  intros ??. unfold querySelector.
  by rewrite querySelectorAll_write_status.
Qed.

Lemma querySelector_highlight_today cls day doc :
  cls ≠ "today" →
  querySelector cls (highlight_today day doc) = querySelector cls doc.
Proof.
  intros ?. unfold querySelector. by rewrite querySelectorAll_highlight_today.
Qed.

Lemma write_status_idemp is_open doc :
  write_status is_open (write_status is_open doc)
  = write_status is_open doc.
Proof.
  apply list_eq; intros node. rewrite !write_status_lookup.
  rewrite querySelector_write_status by done.
  case_decide; destruct (doc !! node) as [e|]; simpl; try done.
  by rewrite show_status_idemp.
Qed.

Lemma highlight_today_idemp day doc :
  highlight_today day (highlight_today day doc) = highlight_today day doc.
Proof.
  apply list_eq; intros node.
  destruct (decide (node ∈ querySelectorAll "hours-item" doc)) as [Hrow|Hrow].
  - apply list_elem_of_lookup in Hrow as [index Hrow].
    rewrite (highlight_today_lookup_row day (highlight_today day doc) index)
      by (by rewrite querySelectorAll_highlight_today).
    rewrite (highlight_today_lookup_row day doc index) by done.
    destruct (doc !! node) as [e|]; simpl; [|done].
    by rewrite mark_row_idemp.
  - rewrite (highlight_today_lookup_other day (highlight_today day doc))
      by (by rewrite querySelectorAll_highlight_today).
    done.
Qed.

Lemma write_status_highlight_today is_open day doc :
  write_status is_open (highlight_today day doc)
  = highlight_today day (write_status is_open doc).
Proof.
  apply list_eq; intros node. rewrite write_status_lookup.
  rewrite querySelector_highlight_today by done.
  destruct (decide (node ∈ querySelectorAll "hours-item" doc)) as [Hrow|Hrow].
  - apply list_elem_of_lookup in Hrow as [index Hrow].
    rewrite (highlight_today_lookup_row day doc index) by done.
    rewrite (highlight_today_lookup_row day _ index)
      by (by rewrite querySelectorAll_write_status).
    rewrite write_status_lookup.
    case_decide; destruct (doc !! node) as [e|]; simpl; try done.
    by rewrite show_status_mark_row.
  - rewrite highlight_today_lookup_other by done.
    rewrite highlight_today_lookup_other
      by (by rewrite querySelectorAll_write_status).
    by rewrite write_status_lookup.
Qed.

(** ** The status indicator *)

Lemma textContent_mark_row todayIndex index e :
  textContent (mark_row todayIndex index e) = textContent e.
Proof. unfold mark_row. by case_bool_decide. Qed.

Lemma show_status_shows is_open e :
  textContent (show_status is_open e)
    = (if is_open then "Aberto agora" else "Fechado")
  ∧ ("open" ∈ classList (show_status is_open e) ↔ is_open = true)
  ∧ ("closed" ∈ classList (show_status is_open e) ↔ is_open = false).
Proof.
  unfold show_status, toggle, add, remove.
  destruct is_open; simpl; set_solver.
Qed.

(** On the nodes that stay, the indicator ends up showing the value of
    [isOpen] in its text and in its classes. *)
Lemma status_indicator_refresh now doc e :
  status_indicator doc = Some e →
  let is_open := isOpen (getDay now) (currentTime now) in
  ∃ e', status_indicator (refresh now doc) = Some e'
    ∧ textContent e' = (if is_open then "Aberto agora" else "Fechado")
    ∧ ("open" ∈ classList e' ↔ is_open = true)
    ∧ ("closed" ∈ classList e' ↔ is_open = false).
Proof.
  intros Hsi is_open. unfold status_indicator in *.
  destruct (querySelector "status-indicator" doc) as [node|] eqn:Hnode;
    [simpl in Hsi | done].
  unfold refresh. fold is_open.
  rewrite querySelector_highlight_today by done.
  rewrite querySelector_write_status, Hnode by done. simpl.
  set (doc1 := write_status is_open doc).
  assert (Hdoc1 : doc1 !! node = Some (show_status is_open e)).
  { unfold doc1. rewrite write_status_lookup, Hsi.
    by rewrite decide_True. }
  destruct (show_status_shows is_open e) as (Htext & Hopen & Hclosed).
  destruct (decide (node ∈ querySelectorAll "hours-item" doc1)) as [Hrow|Hrow].
  - apply list_elem_of_lookup in Hrow as [index Hrow].
    eexists. split.
    { rewrite (highlight_today_lookup_row _ doc1 index) by done.
      by rewrite Hdoc1. }
    rewrite textContent_mark_row. split; [done|].
    split; (etrans; [by apply mark_row_keeps | done]).
  - exists (show_status is_open e).
    by rewrite highlight_today_lookup_other.
Qed.

(** ** The 'today' mark *)

Lemma NoDup_only (l : list nat) x :
  NoDup l → (∀ y, y ∈ l ↔ y = x) → l = [x].
Proof.
  intros Hnodup Hl. destruct l as [|a [|b l]].
  - exfalso. eapply not_elem_of_nil, Hl. done.
  - f_equal. apply Hl. by left.
  - exfalso. apply NoDup_cons in Hnodup as [Ha _]. apply Ha.
    assert (a = x) as -> by (apply Hl; left).
    assert (b = x) as -> by (apply Hl; right; left). by left.
Qed.

Lemma today_rows_highlight_today day doc todayIndex node :
  dayMapping !! day = Some todayIndex →
  querySelectorAll "hours-item" doc !! todayIndex = Some node →
  today_rows (highlight_today day doc) = [node].
Proof.
  intros Hday Hnode. apply NoDup_only.
  { apply NoDup_filter, NoDup_querySelectorAll. }
  intros row. unfold today_rows.
  rewrite list_elem_of_filter, querySelectorAll_highlight_today by done.
  rewrite has_class_true. split.
  - intros [(e & He & Htoday) Hrow].
    apply list_elem_of_lookup in Hrow as [index Hrow].
    rewrite (highlight_today_lookup_row day doc index) in He by done.
    apply fmap_Some in He as (e0 & _ & ->).
    apply mark_row_today in Htoday. rewrite Hday in Htoday.
    injection Htoday as ->. congruence.
  - intros ->. split; [|apply list_elem_of_lookup; by exists todayIndex].
    destruct (querySelectorAll_lookup _ _ _ _ Hnode) as (e0 & He0 & _).
    exists (mark_row (dayMapping !! day) todayIndex e0). split.
    + rewrite (highlight_today_lookup_row day doc todayIndex) by done.
      by rewrite He0.
    + apply mark_row_today. by rewrite Hday.
Qed.

(** Without a row at today's index no row is marked. *)
Lemma today_rows_highlight_today_none day doc :
  (dayMapping !! day ≫= λ todayIndex,
     querySelectorAll "hours-item" doc !! todayIndex) = None →
  today_rows (highlight_today day doc) = [].
Proof.
  intros Hnone. apply elem_of_nil_inv. intros row. unfold today_rows.
  rewrite list_elem_of_filter, querySelectorAll_highlight_today by done.
  rewrite has_class_true. intros [(e & He & Htoday) Hrow].
  apply list_elem_of_lookup in Hrow as [index Hrow].
  rewrite (highlight_today_lookup_row day doc index) in He by done.
  apply fmap_Some in He as (e0 & _ & ->).
  apply mark_row_today in Htoday. rewrite <-Htoday in Hnone. simpl in Hnone.
  congruence.
Qed.

(** With seven rows, [refresh] marks the row at today's index and no
    other. *)
Lemma refresh_marks_one_row now doc :
  (getDay now < 7)%nat →
  length (querySelectorAll "hours-item" doc) = 7%nat →
  ∃ todayIndex node,
    dayMapping !! getDay now = Some todayIndex
    ∧ querySelectorAll "hours-item" doc !! todayIndex = Some node
    ∧ querySelectorAll "hours-item" (refresh now doc)
      = querySelectorAll "hours-item" doc
    ∧ today_rows (refresh now doc) = [node].
Proof.
  intros Hday Hrows.
  destruct (dayMapping !! getDay now) as [todayIndex|] eqn:Htoday.
  2: { apply lookup_ge_None in Htoday. simpl in Htoday. lia. }
  destruct (dayMapping_lookup_lt _ _ Htoday) as [_ Hindex].
  destruct (lookup_lt_is_Some_2 (querySelectorAll "hours-item" doc) todayIndex)
    as [node Hnode]; [lia|].
  exists todayIndex, node. split; [done|]. split; [done|].
  split; [by apply querySelectorAll_refresh|].
  unfold refresh.
  apply (today_rows_highlight_today _ _ todayIndex); [done|].
  by rewrite querySelectorAll_write_status.
Qed.

Lemma refresh_idempotent now doc :
  refresh now (refresh now doc) = refresh now doc.
Proof.
  unfold refresh.
  rewrite write_status_highlight_today.
  by rewrite highlight_today_idemp, write_status_idemp.
Qed.

End Page.


(** * The theme across events and page loads *)

Section ThemeSessions.

Import Session.

Implicit Types (st : Browser) (mm : MatchMedia) (theme : string)
  (evs : list Theme.Event) (markup : gset string).

Lemma light_mode_applyTheme theme st :
  "light-mode" ∈ body_classList (applyTheme theme st) ↔ theme = "light".
Proof.
  unfold applyTheme. destruct (String.eqb_spec theme "light") as [->|Hne];
    simpl; set_solver.
Qed.

Lemma in_sync_applyTheme theme st : in_sync (applyTheme theme st).
Proof.
  unfold in_sync. rewrite light_mode_applyTheme, getItem_applyTheme.
  naive_solver.
Qed.

Lemma in_sync_handle ev st : in_sync st → in_sync (Theme.handle ev st).
Proof.
  intros Hst. destruct ev as [|matches]; simpl.
  - apply in_sync_applyTheme.
  - unfold onSchemeChange.
    destruct (negb _); [apply in_sync_applyTheme | done].
Qed.

Lemma in_sync_run evs st : in_sync st → in_sync (Theme.run evs st).
Proof.
  revert st. induction evs as [|ev evs IH]; intros st Hst; simpl; [done|].
  by apply IH, in_sync_handle.
Qed.

Lemma applied_light st : applied st = "light" ↔ "light-mode" ∈ body_classList st.
Proof.
  unfold applied, classList_contains. case_bool_decide; naive_solver.
Qed.

Lemma applyTheme_other_key key theme st :
  key ≠ THEME_KEY → getItem key (applyTheme theme st) = getItem key st.
Proof.
  intros Hkey. unfold applyTheme, setItem, getItem; simpl.
  rewrite lookup_insert_ne by done. by destruct (String.eqb theme "light").
Qed.

Lemma applyTheme_other_class token theme st :
  token ≠ "light-mode" →
  token ∈ body_classList (applyTheme theme st) ↔ token ∈ body_classList st.
Proof.
  intros Htoken. unfold applyTheme.
  destruct (String.eqb theme "light"); simpl; set_solver.
Qed.

Lemma handle_other_key key ev st :
  key ≠ THEME_KEY → getItem key (Theme.handle ev st) = getItem key st.
Proof.
  intros Hkey. destruct ev as [|matches]; simpl.
  - by apply applyTheme_other_key.
  - unfold onSchemeChange. destruct (negb _); [|done].
    by apply applyTheme_other_key.
Qed.

Lemma handle_other_class token ev st :
  token ≠ "light-mode" →
  token ∈ body_classList (Theme.handle ev st) ↔ token ∈ body_classList st.
Proof.
  intros Htoken. destruct ev as [|matches]; simpl.
  - by apply applyTheme_other_class.
  - unfold onSchemeChange. destruct (negb _); [|done].
    by apply applyTheme_other_class.
Qed.

Lemma light_mode_toggleTheme st :
  "light-mode" ∈ body_classList (toggleTheme st)
  ↔ "light-mode" ∉ body_classList st.
Proof. rewrite body_toggleTheme. case_decide; set_solver. Qed.

(** X1: after the page has loaded, and after every run of toggle clicks
    and colour-scheme notifications that follows, the body carries
    'light-mode' exactly when the stored theme is 'light'. *)
Theorem stored_theme_matches_flag mm st evs :
  let st' := Theme.run evs (initTheme mm st) in
  "light-mode" ∈ body_classList st' ↔ getItem THEME_KEY st' = Some "light".
Proof. apply in_sync_run, in_sync_applyTheme. Qed.

(** X2: the theme code writes one storage key and one class.  Whatever
    the events, every other key of [localStorage] and every other class
    of the body is as it was before the page loaded. *)
Theorem theme_code_touches_one_key_one_class mm st evs :
  (∀ key, key ≠ THEME_KEY →
     getItem key (Theme.run evs (initTheme mm st)) = getItem key st)
  ∧ (∀ token, token ≠ "light-mode" →
       token ∈ body_classList (Theme.run evs (initTheme mm st))
       ↔ token ∈ body_classList st).
Proof.
  assert (Hrun : ∀ s,
    (∀ key, key ≠ THEME_KEY → getItem key (Theme.run evs s) = getItem key s)
    ∧ (∀ token, token ≠ "light-mode" →
         token ∈ body_classList (Theme.run evs s) ↔ token ∈ body_classList s)).
  { induction evs as [|ev evs' IH]; intros s; simpl; [done|].
    destruct (IH (Theme.handle ev s)) as [IHk IHc]. split.
    - intros key Hkey. by rewrite IHk, handle_other_key.
    - intros token Htoken. by rewrite IHc, handle_other_class. }
  destruct (Hrun (initTheme mm st)) as [Hk Hc]. split.
  - intros key Hkey. rewrite Hk by done. by apply applyTheme_other_key.
  - intros token Htoken. rewrite Hc by done. by apply applyTheme_other_class.
Qed.

Lemma theme_code_touches_one_key_one_class_witness :
  getItem "cart" (Theme.run [ThemeToggleClick; SchemeChange true]
                    (initTheme (Some true)
                       (mkBrowser {["cart" := "3"]} {["loaded"]})))
    = getItem "cart" (mkBrowser {["cart" := "3"]} {["loaded"]})
  ∧ ("loaded" ∈ body_classList
        (Theme.run [ThemeToggleClick; SchemeChange true]
           (initTheme (Some true) (mkBrowser {["cart" := "3"]} {["loaded"]})))
     ↔ "loaded" ∈ body_classList (mkBrowser {["cart" := "3"]} {["loaded"]})).
Proof.
  split.
  - apply (proj1 (theme_code_touches_one_key_one_class (Some true)
      (mkBrowser {["cart" := "3"]} {["loaded"]})
      [ThemeToggleClick; SchemeChange true]) "cart").
    discriminate.
  - apply (proj2 (theme_code_touches_one_key_one_class (Some true)
      (mkBrowser {["cart" := "3"]} {["loaded"]})
      [ThemeToggleClick; SchemeChange true]) "loaded").
    discriminate.
Defined.

(** X3: a click on the theme toggle flips the applied theme and stores
    the new one, so that [getSavedTheme] then returns the theme on
    screen, whatever the OS signal. *)
Theorem toggleTheme_flips_and_stores mm st :
  applied (toggleTheme st) = (if String.eqb (applied st) "light"
                              then "dark" else "light")
  ∧ getItem THEME_KEY (toggleTheme st) = Some (applied (toggleTheme st))
  ∧ getSavedTheme mm (toggleTheme st) = applied (toggleTheme st).
Proof.
  assert (Happ : applied (toggleTheme st)
    = if String.eqb (applied st) "light" then "dark" else "light").
  { pose proof (light_mode_toggleTheme st) as Hflip.
    unfold applied, classList_contains.
    do 2 case_bool_decide; simpl; naive_solver. }
  assert (Hst : getItem THEME_KEY (toggleTheme st)
    = Some (applied (toggleTheme st))).
  { rewrite Happ. unfold toggleTheme, applied. rewrite getItem_applyTheme.
    by destruct (classList_contains "light-mode" st). }
  split; [done|]. split; [done|].
  unfold getSavedTheme. rewrite Hst.
  unfold applied. by destruct (classList_contains _ _).
Qed.

(** X4: the theme on screen survives a reload.  Whatever happened on
    the page, loading it again over the same [localStorage] applies the
    theme that was applied before, with any markup classes and any OS
    signal at the time of the reload, and leaves the stored value. *)
Theorem theme_survives_reload mm st evs markup mm' :
  let before := Theme.run evs (initTheme mm st) in
  applied (reload markup mm' before) = applied before
  ∧ getItem THEME_KEY (reload markup mm' before) = getItem THEME_KEY before.
Proof.
  intros before.
  assert (Hsync : in_sync before) by apply in_sync_run, in_sync_applyTheme.
  assert (Hstored : theme_stored before)
    by apply theme_stored_run, theme_stored_init.
  clearbody before. unfold theme_stored in Hstored.
  destruct (getItem THEME_KEY before) as [v|] eqn:Hv; [simpl in Hstored|done].
  assert (Hsaved : getSavedTheme mm' (mkBrowser (localStorage before) markup) = v).
  { unfold getSavedTheme, getItem in *; simpl. by rewrite Hv, Hstored. }
  unfold reload, initTheme. rewrite Hsaved, getItem_applyTheme.
  split; [|done]. unfold in_sync in Hsync. rewrite Hv in Hsync.
  unfold applied, classList_contains.
  pose proof (light_mode_applyTheme v (mkBrowser (localStorage before) markup))
    as Hflag.
  case_bool_decide as Hafter; case_bool_decide as Hbefore; try done; exfalso.
  - apply Hbefore, Hsync. f_equal. by apply Hflag.
  - apply Hafter, Hflag. apply Hsync in Hbefore. by injection Hbefore.
Qed.

(** X5: on a first visit, or with an empty string stored, the page
    takes the theme of the OS signal, light only when [matchMedia]
    exists and matches, and stores it. *)
Theorem first_load_follows_os_signal mm st :
  truthy_item (getItem THEME_KEY st) = false →
  applied (initTheme mm st) = (if prefers_light mm then "light" else "dark")
  ∧ getItem THEME_KEY (initTheme mm st)
    = Some (if prefers_light mm then "light" else "dark").
Proof.
  intros Hno.
  assert (Hsaved : getSavedTheme mm st
    = if prefers_light mm then "light" else "dark").
  { unfold getSavedTheme. destruct (getItem THEME_KEY st) as [v|]; [|done].
    simpl in Hno. by rewrite Hno. }
  unfold initTheme. rewrite Hsaved, getItem_applyTheme. split; [|done].
  unfold applied, classList_contains.
  case_bool_decide as Hin; rewrite light_mode_applyTheme in Hin;
    by destruct (prefers_light mm).
Qed.

Lemma first_load_follows_os_signal_witness :
  applied (initTheme (Some true) fresh) = "light"
  ∧ getItem THEME_KEY (initTheme (Some true) fresh) = Some "light".
Proof.
  apply (first_load_follows_os_signal (Some true) fresh). reflexivity.
Defined.

(** X6: a stored theme that is neither 'light' nor empty is applied as
    dark at page load and written back as it is; it stays stored
    through colour-scheme notifications and is replaced by the first
    toggle click, which switches to light. *)
Theorem unknown_stored_theme_is_dark mm st savedTheme :
  getItem THEME_KEY st = Some savedTheme →
  savedTheme ≠ "" → savedTheme ≠ "light" →
  applied (initTheme mm st) = "dark"
  ∧ getItem THEME_KEY (initTheme mm st) = Some savedTheme
  ∧ (∀ signals, getItem THEME_KEY
       (Theme.run (SchemeChange <$> signals) (initTheme mm st))
       = Some savedTheme)
  ∧ getItem THEME_KEY (toggleTheme (initTheme mm st)) = Some "light".
Proof.
  intros Hv Hne Hnl.
  assert (Hsaved : getSavedTheme mm st = savedTheme).
  { unfold getSavedTheme. rewrite Hv. by destruct savedTheme. }
  assert (Happ : applied (initTheme mm st) = "dark").
  { unfold initTheme, applied, classList_contains. rewrite Hsaved.
    case_bool_decide as Hin; [|done]. by apply light_mode_applyTheme in Hin. }
  assert (Hst : getItem THEME_KEY (initTheme mm st) = Some savedTheme).
  { unfold initTheme. by rewrite Hsaved, getItem_applyTheme. }
  split; [done|]. split; [done|]. split.
  - intros signals. by rewrite scheme_changes_after_load_ignored.
  - unfold toggleTheme. rewrite getItem_applyTheme.
    unfold applied in Happ. by destruct (classList_contains _ _).
Qed.

Lemma unknown_stored_theme_is_dark_witness :
  applied (initTheme (Some true)
             (mkBrowser {[THEME_KEY := "sepia"]} {["light-mode"]})) = "dark"
  ∧ getItem THEME_KEY (initTheme (Some true)
      (mkBrowser {[THEME_KEY := "sepia"]} {["light-mode"]})) = Some "sepia"
  ∧ (∀ signals, getItem THEME_KEY
       (Theme.run (SchemeChange <$> signals) (initTheme (Some true)
          (mkBrowser {[THEME_KEY := "sepia"]} {["light-mode"]})))
       = Some "sepia")
  ∧ getItem THEME_KEY (toggleTheme (initTheme (Some true)
      (mkBrowser {[THEME_KEY := "sepia"]} {["light-mode"]}))) = Some "light".
Proof.
  apply (unknown_stored_theme_is_dark (Some true)
    (mkBrowser {[THEME_KEY := "sepia"]} {["light-mode"]}) "sepia").
  - by vm_compute.
  - discriminate.
  - discriminate.
Defined.

End ThemeSessions.


(** * More on the page update *)

Section PageUpdate.

Implicit Types (doc : Document) (e : Element) (cls : string)
  (node index : nat) (now : Date).

Lemma length_refresh now doc :
  length (refresh now doc) = length doc.
Proof.
  unfold refresh.
  by rewrite length_highlight_today, length_write_status.
Qed.

Lemma has_class_refresh cls now doc node :
  cls ≠ "open" → cls ≠ "closed" → cls ≠ "today" →
  has_class cls (refresh now doc) node = has_class cls doc node.
Proof.
  intros Ho Hc Ht.
  pose proof (querySelectorAll_refresh cls now doc Ho Hc Ht) as Hq.
  pose proof (elem_of_querySelectorAll cls (refresh now doc) node)
    as Hafter.
  pose proof (elem_of_querySelectorAll cls doc node) as Hbefore.
  rewrite Hq in Hafter.
  destruct (has_class cls (refresh now doc) node),
    (has_class cls doc node); naive_solver.
Qed.

Lemma refresh_lookup_other now doc node :
  querySelector "status-indicator" doc ≠ Some node →
  node ∉ querySelectorAll "hours-item" doc →
  refresh now doc !! node = doc !! node.
Proof.
  intros Hsi Hrow. unfold refresh.
  rewrite highlight_today_lookup_other
    by (by rewrite querySelectorAll_write_status).
  rewrite write_status_lookup, decide_False by done.
  by rewrite option_fmap_id.
Qed.

Lemma no_today_row_refresh now doc index :
  dayMapping !! getDay now = Some index →
  (length (querySelectorAll "hours-item" doc) ≤ index)%nat →
  today_rows (refresh now doc) = [].
Proof.
  intros Hday Hshort. unfold refresh.
  apply today_rows_highlight_today_none.
  rewrite Hday; simpl.
  rewrite querySelectorAll_write_status by done.
  by apply lookup_ge_None.
Qed.

(** X10: for a reading of the clock (weekday 0-6, hours 0-23, minutes
    0-59) the time handed to the schedule lies in 0-1439, and the shop is
    open exactly from 9:00 up to, not including, 19:00 on Tuesday,
    Wednesday and Friday, and up to 17:00 on Thursday and Saturday: the
    minutes play no part. *)
Theorem isOpen_by_the_clock now :
  (getDay now < 7)%nat →
  (0 ≤ getHours now < 24)%Z → (0 ≤ getMinutes now < 60)%Z →
  (0 ≤ currentTime now < 1440)%Z
  ∧ (isOpen (getDay now) (currentTime now) = true ↔
       ((getDay now = 2 ∨ getDay now = 3 ∨ getDay now = 5)%nat
        ∧ (9 ≤ getHours now < 19)%Z)
       ∨ ((getDay now = 4 ∨ getDay now = 6)%nat
          ∧ (9 ≤ getHours now < 17)%Z)).
Proof.
  intros Hday Hh Hm. unfold currentTime. split; [lia|].
  destruct (getDay now) as [|[|[|[|[|[|[|day]]]]]]]; [ | | | | | | | lia].
  - rewrite (isOpen_no_interval 0) by (left; by vm_compute). split; [done|lia].
  - rewrite (isOpen_no_interval 1) by (left; by vm_compute). split; [done|lia].
  - rewrite (isOpen_interval 2 (mkInterval 540 1140)) by (by vm_compute).
    simpl. lia.
  - rewrite (isOpen_interval 3 (mkInterval 540 1140)) by (by vm_compute).
    simpl. lia.
  - rewrite (isOpen_interval 4 (mkInterval 540 1020)) by (by vm_compute).
    simpl. lia.
  - rewrite (isOpen_interval 5 (mkInterval 540 1140)) by (by vm_compute).
    simpl. lia.
  - rewrite (isOpen_interval 6 (mkInterval 540 1020)) by (by vm_compute).
    simpl. lia.
Qed.

Lemma isOpen_by_the_clock_witness :
  (0 ≤ currentTime (mkDate 4 16 59) < 1440)%Z
  ∧ (isOpen (getDay (mkDate 4 16 59)) (currentTime (mkDate 4 16 59)) = true ↔
       ((getDay (mkDate 4 16 59) = 2 ∨ getDay (mkDate 4 16 59) = 3
         ∨ getDay (mkDate 4 16 59) = 5)%nat
        ∧ (9 ≤ getHours (mkDate 4 16 59) < 19)%Z)
       ∨ ((getDay (mkDate 4 16 59) = 4 ∨ getDay (mkDate 4 16 59) = 6)%nat
          ∧ (9 ≤ getHours (mkDate 4 16 59) < 17)%Z)).
Proof.
  apply (isOpen_by_the_clock (mkDate 4 16 59)); simpl; lia.
Defined.

(** ** A later update overrides an earlier one *)

Lemma show_status_absorb is_open is_open' e :
  show_status is_open' (show_status is_open e) = show_status is_open' e.
Proof.
  apply element_eq; [|done|by rewrite !depth_show_status].
  unfold show_status, toggle, add, remove.
  apply set_eq; intros x.
  destruct (decide (x = "open")) as [->|];
    [|destruct (decide (x = "closed")) as [->|]];
    destruct is_open, is_open'; simpl; set_solver.
Qed.

Lemma mark_row_absorb todayIndex todayIndex' index e :
  mark_row todayIndex' index (mark_row todayIndex index e)
  = mark_row todayIndex' index e.
Proof.
  apply element_eq.
  - unfold mark_row, add, remove. apply set_eq; intros x.
    destruct (decide (x = "today")) as [->|];
      do 2 case_bool_decide; simpl; set_solver.
  - unfold mark_row. by do 2 case_bool_decide.
  - by rewrite !depth_mark_row.
Qed.

Lemma write_status_absorb is_open is_open' doc :
  write_status is_open' (write_status is_open doc)
  = write_status is_open' doc.
Proof.
  apply list_eq; intros node. rewrite !write_status_lookup.
  rewrite querySelector_write_status by done.
  case_decide; destruct (doc !! node) as [e|]; simpl; try done.
  by rewrite show_status_absorb.
Qed.

Lemma highlight_today_absorb day day' doc :
  highlight_today day' (highlight_today day doc) = highlight_today day' doc.
Proof.
  apply list_eq; intros node.
  destruct (decide (node ∈ querySelectorAll "hours-item" doc)) as [Hrow|Hrow].
  - apply list_elem_of_lookup in Hrow as [index Hrow].
    rewrite (highlight_today_lookup_row day' (highlight_today day doc) index)
      by (by rewrite querySelectorAll_highlight_today).
    rewrite (highlight_today_lookup_row day doc index) by done.
    rewrite (highlight_today_lookup_row day' doc index) by done.
    destruct (doc !! node) as [e|]; simpl; [|done].
    by rewrite mark_row_absorb.
  - rewrite (highlight_today_lookup_other day' (highlight_today day doc))
      by (by rewrite querySelectorAll_highlight_today).
    by rewrite !highlight_today_lookup_other.
Qed.

Lemma refresh_absorb now now' doc :
  refresh now' (refresh now doc) = refresh now' doc.
Proof.
  unfold refresh.
  rewrite write_status_highlight_today.
  by rewrite highlight_today_absorb, write_status_absorb.
Qed.

End PageUpdate.


(** * Elements inside the status indicator *)

Section Nesting.

Implicit Types (doc : Document) (e : Element) (cls : string)
  (node index level : nat) (now : Date).

(** ** The first match of a query *)

Lemma head_filter_seq (P : nat → Prop) `{!∀ i, Decision (P i)} a n i :
  head (filter P (seq a n)) = Some i ↔
  (a ≤ i < a + n)%nat ∧ P i ∧ ∀ j, (a ≤ j < i)%nat → ¬ P j.
Proof.
  revert a. induction n as [|n IH]; intros a; simpl.
  - split; [done | lia].
  - destruct (decide (P a)) as [Ha|Ha].
    + rewrite filter_cons_True by done. simpl. split.
      * intros [= <-]. split; [lia|]. split; [done|]. lia.
      * intros (Hi & HP & Hfirst). f_equal.
        destruct (decide (a = i)) as [|Hne]; [done|].
        exfalso. apply (Hfirst a); [lia | done].
    + rewrite filter_cons_False by done. rewrite IH. split.
      * intros (Hi & HP & Hfirst). split; [lia|]. split; [done|].
        intros j Hj. destruct (decide (j = a)) as [->|]; [done|].
        apply Hfirst. lia.
      * intros (Hi & HP & Hfirst).
        assert (a ≠ i) by (by intros ->).
        split; [lia|]. split; [done|]. intros j Hj. apply Hfirst. lia.
Qed.

Lemma querySelector_Some cls doc node :
  querySelector cls doc = Some node ↔
  has_class cls doc node = true
  ∧ ∀ j, (j < node)%nat → has_class cls doc j = false.
Proof.
  unfold querySelector, querySelectorAll. rewrite head_filter_seq. split.
  - intros (_ & Hnode & Hfirst). split; [done|].
    intros j Hj. apply not_true_is_false, Hfirst. lia.
  - intros [Hnode Hfirst]. split; [|split; [done|]].
    + apply has_class_true in Hnode as (e & He & _).
      apply lookup_lt_Some in He. lia.
    + intros j Hj. rewrite Hfirst by lia. done.
Qed.

(** The first match is found again in a document that agrees up to it. *)
Lemma querySelector_agree cls doc doc' node :
  (∀ j, (j ≤ node)%nat → doc' !! j = doc !! j) →
  querySelector cls doc = Some node → querySelector cls doc' = Some node.
Proof.
  intros Hagree. rewrite !querySelector_Some. unfold has_class.
  intros [Hnode Hfirst]. split.
  - by rewrite Hagree.
  - intros j Hj. rewrite Hagree by lia. by apply Hfirst.
Qed.

(** ** Passing over the elements inside a node *)

Lemma length_skip_inside level (l : Document) :
  (length (skip_inside level l) ≤ length l)%nat.
Proof.
  induction l as [|e l IH]; simpl; [done|].
  destruct (level <? depth e)%nat; simpl; lia.
Qed.

Lemma skip_inside_fixed level (l : Document) :
  skip_inside level l = l ↔
  match l with [] => True | e :: _ => (depth e ≤ level)%nat end.
Proof.
  destruct l as [|e l]; simpl; [done|].
  destruct (level <? depth e)%nat eqn:Hdeep.
  - apply Nat.ltb_lt in Hdeep. split; [|lia].
    intros Heq. pose proof (length_skip_inside level l) as Hlen.
    rewrite Heq in Hlen. simpl in Hlen. lia.
  - apply Nat.ltb_ge in Hdeep. done.
Qed.

Lemma skip_inside_idemp level (l : Document) :
  skip_inside level (skip_inside level l) = skip_inside level l.
Proof.
  induction l as [|e l IH]; simpl; [done|].
  destruct (level <? depth e)%nat eqn:Hdeep; [done|].
  simpl. by rewrite Hdeep.
Qed.

(** What is passed over lies deeper than [level], all of it. *)
Lemma skip_inside_split level (l : Document) :
  ∃ inside, Forall (λ c, (level < depth c)%nat) inside
    ∧ l = (inside ++ skip_inside level l)%list.
Proof.
  induction l as [|e l (inside & Hinside & Hl)]; simpl.
  - by exists [].
  - destruct (level <? depth e)%nat eqn:Hdeep.
    + apply Nat.ltb_lt in Hdeep. exists (e :: inside). split.
      * by constructor.
      * simpl. by rewrite <-Hl.
    + by exists [].
Qed.

Lemma filter_skip_inside (P : Element → Prop) `{!∀ e, Decision (P e)}
    level (l : Document) :
  (length (filter P (skip_inside level l)) ≤ length (filter P l))%nat.
Proof.
  induction l as [|e l IH]; simpl; [done|].
  destruct (level <? depth e)%nat; [|done].
  rewrite filter_cons. destruct (decide (P e)); simpl; lia.
Qed.

Lemma remove_inside_lookup node doc j :
  (j ≤ node)%nat → remove_inside node doc !! j = doc !! j.
Proof.
  intros Hj. unfold remove_inside.
  destruct (doc !! node) as [e|] eqn:He; [|done].
  apply lookup_lt_Some in He.
  rewrite lookup_app_l by (rewrite length_take; lia).
  apply lookup_take_lt. lia.
Qed.

Lemma remove_inside_idemp node doc :
  remove_inside node (remove_inside node doc) = remove_inside node doc.
Proof.
  unfold remove_inside at 2 3.
  destruct (doc !! node) as [e|] eqn:He.
  - pose proof (lookup_lt_Some _ _ _ He) as Hlt.
    assert (Hlen : length (take (S node) doc) = S node)
      by (rewrite length_take; lia).
    unfold remove_inside.
    rewrite lookup_app_l, lookup_take_lt, He by lia.
    rewrite take_app_length', drop_app_length' by done.
    by rewrite skip_inside_idemp.
  - unfold remove_inside. by rewrite He.
Qed.

(** Whether a node holds elements is a matter of the depths alone. *)
Lemma remove_inside_depths node doc doc' :
  depth <$> doc' = depth <$> doc →
  remove_inside node doc = doc → remove_inside node doc' = doc'.
Proof.
  intros Hdepths. unfold remove_inside.
  assert (Hnode : depth <$> doc' !! node = depth <$> doc !! node)
    by (by rewrite <-!list_lookup_fmap, Hdepths).
  destruct (doc !! node) as [e|] eqn:He, (doc' !! node) as [e'|] eqn:He';
    simpl in Hnode; try done.
  injection Hnode as Hdepth. intros Hfixed.
  rewrite <-(take_drop (S node) doc) in Hfixed at 3.
  apply app_inv_head in Hfixed. apply skip_inside_fixed in Hfixed.
  rewrite <-(take_drop (S node) doc') at 3. f_equal.
  apply skip_inside_fixed.
  assert (Hdrop : depth <$> drop (S node) doc' = depth <$> drop (S node) doc)
    by (by rewrite !fmap_drop, Hdepths).
  destruct (drop (S node) doc) as [|c l], (drop (S node) doc') as [|c' l'];
    simpl in Hdrop; try done.
  injection Hdrop as Hc _. lia.
Qed.

(** ** The document without what the indicator holds *)

Lemma querySelector_strip_status doc :
  querySelector "status-indicator" (strip_status doc)
  = querySelector "status-indicator" doc.
Proof.
  unfold strip_status.
  destruct (querySelector "status-indicator" doc) as [si|] eqn:Hsi; [|done].
  apply (querySelector_agree _ doc); [|done].
  intros j Hj. by apply remove_inside_lookup.
Qed.

Lemma status_indicator_strip_status doc :
  status_indicator (strip_status doc) = status_indicator doc.
Proof.
  unfold status_indicator. rewrite querySelector_strip_status.
  destruct (querySelector "status-indicator" doc) as [si|] eqn:Hsi; [|done].
  simpl. unfold strip_status. rewrite Hsi. by apply remove_inside_lookup.
Qed.

Lemma strip_status_idemp doc :
  strip_status (strip_status doc) = strip_status doc.
Proof.
  unfold strip_status at 1. rewrite querySelector_strip_status.
  unfold strip_status.
  destruct (querySelector "status-indicator" doc) as [si|]; [|done].
  apply remove_inside_idemp.
Qed.

Lemma depths_write_status is_open doc :
  depth <$> write_status is_open doc = depth <$> doc.
Proof.
  apply list_eq; intros node. rewrite !list_lookup_fmap, write_status_lookup.
  case_decide; destruct (doc !! node) as [e|]; simpl; try done.
  f_equal. apply depth_show_status.
Qed.

Lemma depths_highlight_today day doc :
  depth <$> highlight_today day doc = depth <$> doc.
Proof.
  apply list_eq; intros node. rewrite !list_lookup_fmap.
  destruct (decide (node ∈ querySelectorAll "hours-item" doc)) as [Hrow|Hrow].
  - apply list_elem_of_lookup in Hrow as [index Hrow].
    rewrite (highlight_today_lookup_row day doc index) by done.
    destruct (doc !! node) as [e|]; simpl; [|done].
    f_equal. apply depth_mark_row.
  - by rewrite highlight_today_lookup_other.
Qed.

Lemma depths_refresh now doc : depth <$> refresh now doc = depth <$> doc.
Proof.
  unfold refresh. by rewrite depths_highlight_today, depths_write_status.
Qed.

Lemma querySelector_refresh now doc :
  querySelector "status-indicator" (refresh now doc)
  = querySelector "status-indicator" doc.
Proof.
  unfold refresh. rewrite querySelector_highlight_today by done.
  by apply querySelector_write_status.
Qed.

(** The writes to the nodes that stay bring no element into the
    indicator. *)
Lemma strip_status_refresh now doc :
  strip_status doc = doc → strip_status (refresh now doc) = refresh now doc.
Proof.
  unfold strip_status. rewrite querySelector_refresh.
  destruct (querySelector "status-indicator" doc) as [si|]; [|done].
  apply remove_inside_depths, depths_refresh.
Qed.

(** ** [updateOpenStatus] as removal followed by writes in place *)

Lemma update_status_indicator_strip is_open doc :
  update_status_indicator is_open doc = write_status is_open (strip_status doc).
Proof.
  unfold write_status. rewrite querySelector_strip_status.
  unfold update_status_indicator, strip_status.
  destruct (querySelector "status-indicator" doc) as [si|] eqn:Hsi; [|done].
  apply querySelector_Some in Hsi as [Hsi _].
  apply has_class_true in Hsi as (e & He & _).
  pose proof (lookup_lt_Some _ _ _ He) as Hlt.
  unfold set_textContent, remove_inside.
  rewrite !list_lookup_alter_eq, He. simpl.
  rewrite !take_alter_ge, !drop_alter_lt by lia.
  rewrite (take_S_r _ _ e) by done. rewrite <-app_assoc.
  rewrite alter_app_r_alt by (rewrite length_take; lia).
  rewrite length_take, Nat.min_l, Nat.sub_diag by lia. simpl.
  do 2 f_equal. unfold toggle. by destruct is_open.
Qed.

Lemma updateOpenStatus_refresh now doc :
  updateOpenStatus now doc = refresh now (strip_status doc).
Proof.
  unfold updateOpenStatus, refresh. by rewrite update_status_indicator_strip.
Qed.

(** ** Counting rows *)

Lemma filter_ext_elem_of {A} (P Q : A → Prop) `{!∀ x, Decision (P x)}
    `{!∀ x, Decision (Q x)} (l : list A) :
  (∀ x, x ∈ l → (P x ↔ Q x)) → filter P l = filter Q l.
Proof.
  induction l as [|x l IH]; intros Hext; [done|].
  rewrite !filter_cons.
  assert (HPQ : P x ↔ Q x) by (apply Hext; by left).
  rewrite IH by (intros y Hy; apply Hext; by right).
  destruct (decide (P x)), (decide (Q x)); naive_solver.
Qed.

Lemma length_querySelectorAll cls doc :
  length (querySelectorAll cls doc)
  = length (filter (λ e, cls ∈ classList e) doc).
Proof.
  unfold querySelectorAll. induction doc as [|x doc IH] using rev_ind; [done|].
  rewrite length_app, Nat.add_1_r.
  rewrite seq_S, !filter_app, !length_app. simpl. f_equal.
  - rewrite <-IH. f_equal. apply filter_ext_elem_of. intros i Hi.
    apply elem_of_seq in Hi. unfold has_class.
    by rewrite lookup_app_l by lia.
  - rewrite !filter_cons, !filter_nil. unfold has_class.
    rewrite list_lookup_middle by done.
    destruct (decide (cls ∈ classList x)) as [Hx|Hx].
    + rewrite decide_True; [done|]. by apply bool_decide_eq_true.
    + rewrite decide_False; [done|]. rewrite bool_decide_eq_true. done.
Qed.

(** Setting the indicator's text can only take rows away. *)
Lemma length_querySelectorAll_strip_status cls doc :
  (length (querySelectorAll cls (strip_status doc))
   ≤ length (querySelectorAll cls doc))%nat.
Proof.
  rewrite !length_querySelectorAll. unfold strip_status.
  destruct (querySelector "status-indicator" doc) as [si|]; [|done].
  unfold remove_inside. destruct (doc !! si) as [e|]; [|done].
  rewrite <-(take_drop (S si) doc) at 3. rewrite !filter_app, !length_app.
  pose proof (filter_skip_inside (λ e0, cls ∈ classList e0) (depth e)
                (drop (S si) doc)). lia.
Qed.

(** ** The 'today' mark on the rows that stay *)

Lemma one_row_today_after_update now doc :
  (getDay now < 7)%nat →
  length (querySelectorAll "hours-item" (strip_status doc)) = 7%nat →
  ∃ todayIndex node,
    dayMapping !! getDay now = Some todayIndex
    ∧ querySelectorAll "hours-item" (strip_status doc) !! todayIndex = Some node
    ∧ querySelectorAll "hours-item" (updateOpenStatus now doc)
      = querySelectorAll "hours-item" (strip_status doc)
    ∧ today_rows (updateOpenStatus now doc) = [node].
Proof.
  intros Hday Hrows. rewrite updateOpenStatus_refresh.
  by apply refresh_marks_one_row.
Qed.

(** C8, as amended: on a page that has seven hours rows outside the
    status indicator (rows inside it are removed when its text is set,
    before the rows are queried), after [updateOpenStatus] the hours list
    has seven rows and exactly one of them carries 'today': the row at
    index [dayMapping[day]], [day] being the current weekday; every other
    row is without the mark, whatever it carried before. *)
Theorem exactly_one_row_today now doc :
  (getDay now < 7)%nat →
  length (querySelectorAll "hours-item" (strip_status doc)) = 7%nat →
  ∃ todayIndex node,
    dayMapping !! getDay now = Some todayIndex
    ∧ querySelectorAll "hours-item" (updateOpenStatus now doc) !! todayIndex
      = Some node
    ∧ length (querySelectorAll "hours-item" (updateOpenStatus now doc)) = 7%nat
    ∧ today_rows (updateOpenStatus now doc) = [node].
Proof.
  intros Hday Hrows.
  destruct (one_row_today_after_update now doc Hday Hrows)
    as (todayIndex & node & Htoday & Hnode & Hsame & Hmark).
  exists todayIndex, node. rewrite Hsame. done.
Qed.

Lemma exactly_one_row_today_witness :
  ∃ todayIndex node,
    dayMapping !! getDay (mkDate 2 20 0) = Some todayIndex
    ∧ querySelectorAll "hours-item"
        (updateOpenStatus (mkDate 2 20 0) sample_page) !! todayIndex
      = Some node
    ∧ length (querySelectorAll "hours-item"
                (updateOpenStatus (mkDate 2 20 0) sample_page)) = 7%nat
    ∧ today_rows (updateOpenStatus (mkDate 2 20 0) sample_page) = [node].
Proof.
  apply (exactly_one_row_today (mkDate 2 20 0) sample_page).
  - simpl. lia.
  - vm_compute. reflexivity.
Defined.

(** C8, as the claim words it, fails on a page whose status indicator
    holds one of the seven rows: on a Sunday the row inside the
    indicator is removed with the indicator's old content, six rows are
    left, none of them at index 6, and no row carries 'today'. *)
Lemma seven_rows_one_nested_none_marked :
  (getDay (mkDate 0 12 0) < 7)%nat
  ∧ length (querySelectorAll "hours-item" nested_page) = 7%nat
  ∧ length (querySelectorAll "hours-item"
              (updateOpenStatus (mkDate 0 12 0) nested_page)) = 6%nat
  ∧ today_rows (updateOpenStatus (mkDate 0 12 0) nested_page) = []
  ∧ ∀ node, today_rows (updateOpenStatus (mkDate 0 12 0) nested_page) ≠ [node].
Proof.
  split; [simpl; lia|]. split; [by vm_compute|]. split; [by vm_compute|].
  assert (Hnone : today_rows (updateOpenStatus (mkDate 0 12 0) nested_page) = [])
    by (by vm_compute).
  split; [done|]. intros node. by rewrite Hnone.
Qed.

(** When the indicator holds no element, the rows before and after the
    update are the same nodes. *)
Lemma one_row_today_without_nesting now doc :
  strip_status doc = doc →
  (getDay now < 7)%nat →
  length (querySelectorAll "hours-item" doc) = 7%nat →
  ∃ todayIndex node,
    dayMapping !! getDay now = Some todayIndex
    ∧ querySelectorAll "hours-item" doc !! todayIndex = Some node
    ∧ querySelectorAll "hours-item" (updateOpenStatus now doc)
      = querySelectorAll "hours-item" doc
    ∧ today_rows (updateOpenStatus now doc) = [node].
Proof.
  intros Hflat Hday Hrows.
  pose proof (one_row_today_after_update now doc Hday) as Hone.
  rewrite Hflat in Hone. by apply Hone.
Qed.

(** C9: [updateOpenStatus] is idempotent.  For one reading of the
    clock, a second run from the document the first run left gives that
    document again: the status indicator (classes and text) and the
    marks of the hours rows are as after one run, as is every other
    node. *)
Theorem updateOpenStatus_idempotent now doc :
  updateOpenStatus now (updateOpenStatus now doc) = updateOpenStatus now doc.
Proof.
  rewrite !updateOpenStatus_refresh.
  rewrite strip_status_refresh by apply strip_status_idemp.
  apply refresh_idempotent.
Qed.

(** X7: when the page has a status indicator, [updateOpenStatus] leaves
    it showing the value of [isOpen]: the text is 'Aberto agora' or
    'Fechado', and of the classes 'open' and 'closed' exactly the one that
    applies is set, whatever the indicator showed before. *)
Theorem status_indicator_updateOpenStatus now doc e :
  status_indicator doc = Some e →
  let is_open := isOpen (getDay now) (currentTime now) in
  ∃ e', status_indicator (updateOpenStatus now doc) = Some e'
    ∧ textContent e' = (if is_open then "Aberto agora" else "Fechado")
    ∧ ("open" ∈ classList e' ↔ is_open = true)
    ∧ ("closed" ∈ classList e' ↔ is_open = false).
Proof.
  intros Hsi. rewrite updateOpenStatus_refresh.
  apply (status_indicator_refresh now (strip_status doc) e).
  by rewrite status_indicator_strip_status.
Qed.

Lemma status_indicator_updateOpenStatus_witness :
  let is_open :=
    isOpen (getDay (mkDate 0 10 30)) (currentTime (mkDate 0 10 30)) in
  ∃ e', status_indicator (updateOpenStatus (mkDate 0 10 30) sample_page)
        = Some e'
    ∧ textContent e' = (if is_open then "Aberto agora" else "Fechado")
    ∧ ("open" ∈ classList e' ↔ is_open = true)
    ∧ ("closed" ∈ classList e' ↔ is_open = false).
Proof.
  apply (status_indicator_updateOpenStatus (mkDate 0 10 30) sample_page
           (mkElement {["status-indicator"; "open"]} "Aberto agora" 2)).
  by vm_compute.
Defined.

(** X8: what [updateOpenStatus] changes.  It removes the elements inside
    the first '.status-indicator' (the run of deeper elements that
    follows it; [strip_status] is the document without them) and no
    other; on a page without an indicator it removes nothing.  Of the
    nodes that stay, every one that is neither that indicator nor a
    '.hours-item' is as it was, and on no node is a class other than
    'open', 'closed' and 'today' added or removed. *)
Theorem updateOpenStatus_frame now doc :
  length (updateOpenStatus now doc) = length (strip_status doc)
  ∧ (∀ node,
       querySelector "status-indicator" doc ≠ Some node →
       node ∉ querySelectorAll "hours-item" (strip_status doc) →
       updateOpenStatus now doc !! node = strip_status doc !! node)
  ∧ (∀ node cls,
       cls ≠ "open" → cls ≠ "closed" → cls ≠ "today" →
       has_class cls (updateOpenStatus now doc) node
       = has_class cls (strip_status doc) node)
  ∧ (querySelector "status-indicator" doc = None → strip_status doc = doc)
  ∧ (∀ statusIndicator e,
       querySelector "status-indicator" doc = Some statusIndicator →
       doc !! statusIndicator = Some e →
       ∃ inside,
         Forall (λ c, (depth e < depth c)%nat) inside
         ∧ doc = (take (S statusIndicator) (strip_status doc) ++ inside
                  ++ drop (S statusIndicator) (strip_status doc))%list
         ∧ (∀ c, strip_status doc !! S statusIndicator = Some c →
                 (depth c ≤ depth e)%nat)).
Proof.
  rewrite updateOpenStatus_refresh.
  split; [apply length_refresh|]. split; [|split; [|split]].
  - intros node Hsi Hrow. apply refresh_lookup_other; [|done].
    by rewrite querySelector_strip_status.
  - intros node cls. apply has_class_refresh.
  - unfold strip_status. by intros ->.
  - intros si e Hsi He. unfold strip_status, remove_inside. rewrite Hsi, He.
    pose proof (lookup_lt_Some _ _ _ He) as Hlt.
    assert (Hlen : length (take (S si) doc) = S si)
      by (rewrite length_take; lia).
    rewrite take_app_length', drop_app_length' by done.
    destruct (skip_inside_split (depth e) (drop (S si) doc))
      as (inside & Hinside & Hdrop).
    exists inside. split; [done|]. split.
    + rewrite <-Hdrop. by rewrite take_drop.
    + intros c. rewrite lookup_app_r by lia.
      rewrite Hlen, Nat.sub_diag. intros Hc.
      pose proof (skip_inside_idemp (depth e) (drop (S si) doc)) as Hidem.
      apply skip_inside_fixed in Hidem.
      destruct (skip_inside (depth e) (drop (S si) doc)) as [|c' rest];
        simpl in Hc; [done|]. by injection Hc as ->.
Qed.

Lemma updateOpenStatus_frame_witness :
  updateOpenStatus (mkDate 2 9 0) sample_page !! 1%nat
  = strip_status sample_page !! 1%nat
  ∧ has_class "hours-item" (updateOpenStatus (mkDate 2 9 0) nested_page) 3
    = has_class "hours-item" (strip_status nested_page) 3
  ∧ strip_status (take 1 (drop 1 sample_page)) = take 1 (drop 1 sample_page)
  ∧ ∃ inside,
      Forall (λ c, (depth (mkElement {["status-indicator"]} "" 1) < depth c)%nat)
             inside
      ∧ nested_page = (take 1 (strip_status nested_page) ++ inside
                       ++ drop 1 (strip_status nested_page))%list
      ∧ (∀ c, strip_status nested_page !! 1%nat = Some c →
              (depth c ≤ depth (mkElement {["status-indicator"]} "" 1))%nat).
Proof.
  split; [|split; [|split]].
  - apply (proj1 (proj2 (updateOpenStatus_frame (mkDate 2 9 0) sample_page))
      1%nat).
    + by vm_compute.
    + rewrite elem_of_querySelectorAll. by vm_compute.
  - apply (proj1 (proj2 (proj2
      (updateOpenStatus_frame (mkDate 2 9 0) nested_page))) 3%nat "hours-item");
      discriminate.
  - apply (proj1 (proj2 (proj2 (proj2
      (updateOpenStatus_frame (mkDate 2 9 0) (take 1 (drop 1 sample_page))))))).
    by vm_compute.
  - apply (proj2 (proj2 (proj2 (proj2
      (updateOpenStatus_frame (mkDate 2 9 0) nested_page)))) 0%nat
      (mkElement {["status-indicator"]} "" 1)); by vm_compute.
Defined.

(** X9: when the hours list has no row at today's index (it is shorter
    than the weekday needs), no row at all carries 'today' after the
    update: the marks that were there are removed and none is set. *)
Theorem no_today_row_no_mark now doc index :
  dayMapping !! getDay now = Some index →
  (length (querySelectorAll "hours-item" doc) ≤ index)%nat →
  today_rows (updateOpenStatus now doc) = [].
Proof.
  intros Hday Hshort. rewrite updateOpenStatus_refresh.
  apply (no_today_row_refresh _ _ index); [done|].
  pose proof (length_querySelectorAll_strip_status "hours-item" doc). lia.
Qed.

Lemma no_today_row_no_mark_witness :
  today_rows (updateOpenStatus (mkDate 0 12 0) (take 6 sample_page)) = [].
Proof.
  apply (no_today_row_no_mark (mkDate 0 12 0) (take 6 sample_page) 6).
  - reflexivity.
  - vm_compute. lia.
Defined.

Lemma updateOpenStatus_absorb now now' doc :
  updateOpenStatus now' (updateOpenStatus now doc) = updateOpenStatus now' doc.
Proof.
  rewrite !updateOpenStatus_refresh.
  rewrite strip_status_refresh by apply strip_status_idemp.
  apply refresh_absorb.
Qed.

(** X23: only the last tick counts.  After any number of runs of
    [updateOpenStatus] at any clock readings, the page is what a single
    run at the last reading makes of the page the script started with:
    nothing of an earlier reading is left in the indicator or in the
    marks. *)
Theorem last_tick_decides (ticks : list Date) now doc :
  updateOpenStatus now (foldl (λ doc' tick, updateOpenStatus tick doc') doc ticks)
  = updateOpenStatus now doc.
Proof.
  revert doc. induction ticks as [|tick ticks IH]; intros doc; simpl; [done|].
  by rewrite IH, updateOpenStatus_absorb.
Qed.

End Nesting.


(** * The mobile menu *)

Section Menu.

Import MobileNav.

Implicit Types (st : Page) (o : Outcome) (path : list Node) (key : string)
  (listener : Page → option Page) (listeners : list (Page → option Page)).

(** ** The two listeners that write *)

Lemma openMenu_Some st st' :
  openMenu st = Some st' →
  is_active st' = true ∧ overflow st' = "hidden"
  ∧ is_Some (navMenu st') ∧ navToggle st' = navToggle st
  ∧ navClose st' = navClose st.
Proof.
  unfold openMenu. destruct (navMenu st) as [classes|]; [|done].
  intros [= <-]. unfold is_active; simpl.
  rewrite bool_decide_eq_true_2 by set_solver. eauto.
Qed.

Lemma closeMenu_Some st st' :
  closeMenu st = Some st' →
  is_active st' = false ∧ overflow st' = ""
  ∧ is_Some (navMenu st') ∧ navToggle st' = navToggle st
  ∧ navClose st' = navClose st.
Proof.
  unfold closeMenu. destruct (navMenu st) as [classes|]; [|done].
  intros [= <-]. unfold is_active; simpl.
  rewrite bool_decide_eq_false_2 by set_solver. eauto.
Qed.

Lemma openMenu_is_Some st : is_Some (navMenu st) → is_Some (openMenu st).
Proof. intros [classes Hm]. unfold openMenu. rewrite Hm. eauto. Qed.

Lemma closeMenu_is_Some st : is_Some (navMenu st) → is_Some (closeMenu st).
Proof. intros [classes Hm]. unfold closeMenu. rewrite Hm. eauto. Qed.

Lemma closeMenu_inactive st :
  is_Some (navMenu st) → is_active st = false → overflow st = "" →
  closeMenu st = Some st.
Proof.
  intros [classes Hm] Hinactive Hoverflow. unfold closeMenu. rewrite Hm.
  unfold is_active in Hinactive. rewrite Hm in Hinactive.
  apply bool_decide_eq_false in Hinactive.
  destruct st as [menu t c ov]; simpl in *. subst. do 2 f_equal.
  f_equal. set_solver.
Qed.

(** ** Listeners along a path *)

Lemma click_listeners_cases st path listener :
  listener ∈ path ≫= click_listeners st →
  listener = openMenu ∨ listener = closeMenu.
Proof.
  intros Hin. apply list_elem_of_bind in Hin as (n & Hin & _).
  unfold click_listeners in Hin.
  destruct (navToggle st && is_navToggle n), (closes st n); simpl in Hin;
    set_solver.
Qed.

Lemma click_listeners_no_toggle st path :
  on_path is_navToggle path = false →
  Forall (λ listener, listener = closeMenu) (path ≫= click_listeners st).
Proof.
  induction path as [|n path IH]; simpl; intros Hpath; [constructor|].
  apply orb_false_iff in Hpath as [Hn Hpath].
  apply Forall_app. split; [|by apply IH].
  unfold click_listeners. rewrite Hn, andb_false_r. simpl.
  destruct (closes st n); simpl; repeat constructor.
Qed.

Lemma click_listeners_no_closer st path :
  on_path (closes st) path = false →
  Forall (λ listener, listener = openMenu) (path ≫= click_listeners st).
Proof.
  induction path as [|n path IH]; simpl; intros Hpath; [constructor|].
  apply orb_false_iff in Hpath as [Hn Hpath].
  apply Forall_app. split; [|by apply IH].
  unfold click_listeners. rewrite Hn, app_nil_r.
  destruct (navToggle st && is_navToggle n); simpl; repeat constructor.
Qed.

Lemma click_listeners_closer st path :
  on_path (closes st) path = true → path ≫= click_listeners st ≠ [].
Proof.
  induction path as [|n path IH]; simpl; intros Hpath; [done|].
  intros Hnil. apply app_eq_nil in Hnil as [Hn Hnil].
  apply orb_true_iff in Hpath as [Hcloser | Hpath]; [|by apply IH].
  unfold click_listeners in Hn. rewrite Hcloser in Hn.
  by destruct (navToggle st && is_navToggle n).
Qed.

Lemma click_listeners_toggle st path :
  navToggle st = true → on_path is_navToggle path = true →
  path ≫= click_listeners st ≠ [].
Proof.
  intros Ht. induction path as [|n path IH]; simpl; intros Hpath; [done|].
  intros Hnil. apply app_eq_nil in Hnil as [Hn Hnil].
  apply orb_true_iff in Hpath as [Htoggle | Hpath]; [|by apply IH].
  unfold click_listeners in Hn. rewrite Ht, Htoggle in Hn. done.
Qed.

Lemma click_listeners_none st path :
  on_path is_navToggle path = false → on_path (closes st) path = false →
  path ≫= click_listeners st = [].
Proof.
  intros Ht Hc.
  pose proof (click_listeners_no_toggle st path Ht) as Hclose.
  pose proof (click_listeners_no_closer st path Hc) as Hopen.
  destruct (path ≫= click_listeners st) as [|listener rest]; [done|].
  apply Forall_cons in Hclose as [-> _]. apply Forall_cons in Hopen as [Heq _].
  assert (closeMenu closed_page = openMenu closed_page) as Habs
    by (by rewrite Heq).
  by vm_compute in Habs.
Qed.

(** ** Dispatch *)

Lemma invoke_all_cons listener listeners o :
  invoke_all (listener :: listeners) o = invoke_all listeners (invoke listener o).
Proof. done. Qed.

Lemma invoke_all_preserves (P : Outcome → Prop) listeners o :
  (∀ listener o', listener ∈ listeners → P o' → P (invoke listener o')) →
  P o → P (invoke_all listeners o).
Proof.
  revert o. induction listeners as [|listener listeners IH]; intros o Hstep Ho;
    [done|].
  rewrite invoke_all_cons. apply IH.
  - intros l o' Hl. apply Hstep. by right.
  - apply Hstep; [by left | done].
Qed.

(** The page is wired: the menu and the hamburger exist. *)
Lemma invoke_wired listener o :
  (∀ st, is_Some (navMenu st) → navToggle st = true →
     ∃ st', listener st = Some st' ∧ is_Some (navMenu st')
       ∧ navToggle st' = true ∧ navClose st' = navClose st) →
  is_Some (navMenu (page o)) → navToggle (page o) = true →
  is_Some (navMenu (page (invoke listener o)))
  ∧ navToggle (page (invoke listener o)) = true
  ∧ navClose (page (invoke listener o)) = navClose (page o)
  ∧ uncaught (invoke listener o) = uncaught o.
Proof.
  intros Hl Hm Ht. destruct (Hl _ Hm Ht) as (st' & Hst' & ? & ? & ?).
  unfold invoke. rewrite Hst'. done.
Qed.

Lemma openMenu_wired st :
  is_Some (navMenu st) → navToggle st = true →
  ∃ st', openMenu st = Some st' ∧ is_Some (navMenu st')
    ∧ navToggle st' = true ∧ navClose st' = navClose st.
Proof.
  intros Hm Ht. destruct (openMenu_is_Some st Hm) as [st' Hst'].
  destruct (openMenu_Some _ _ Hst') as (_ & _ & ? & ? & ?).
  exists st'. repeat split; congruence.
Qed.

Lemma closeMenu_wired st :
  is_Some (navMenu st) → navToggle st = true →
  ∃ st', closeMenu st = Some st' ∧ is_Some (navMenu st')
    ∧ navToggle st' = true ∧ navClose st' = navClose st.
Proof.
  intros Hm Ht. destruct (closeMenu_is_Some st Hm) as [st' Hst'].
  destruct (closeMenu_Some _ _ Hst') as (_ & _ & ? & ? & ?).
  exists st'. repeat split; congruence.
Qed.

Lemma onDocumentClick_wired path st :
  is_Some (navMenu st) → navToggle st = true →
  ∃ st', onDocumentClick path st = Some st' ∧ is_Some (navMenu st')
    ∧ navToggle st' = true ∧ navClose st' = navClose st.
Proof.
  intros Hm Ht. unfold onDocumentClick. destruct Hm as [classes Hm].
  rewrite Hm, Ht.
  destruct (bool_decide _ && negb _); [|by eauto 10].
  destruct (negb _); [|by eauto 10]. apply closeMenu_wired; eauto.
Qed.

Lemma onKeydown_wired key st :
  is_Some (navMenu st) → navToggle st = true →
  ∃ st', onKeydown key st = Some st' ∧ is_Some (navMenu st')
    ∧ navToggle st' = true ∧ navClose st' = navClose st.
Proof.
  intros Hm Ht. unfold onKeydown. destruct (String.eqb key "Escape");
    [|by eauto 10].
  destruct Hm as [classes Hm]. rewrite Hm.
  destruct (bool_decide _); [|by eauto 10]. apply closeMenu_wired; eauto.
Qed.

Lemma click_wired path o :
  is_Some (navMenu (page o)) → navToggle (page o) = true →
  is_Some (navMenu (page (click path o)))
  ∧ navToggle (page (click path o)) = true
  ∧ navClose (page (click path o)) = navClose (page o)
  ∧ uncaught (click path o) = uncaught o.
Proof.
  intros Hm Ht. unfold click.
  set (listeners := path ≫= click_listeners (page o)).
  assert (Hall : is_Some (navMenu (page (invoke_all listeners o)))
    ∧ navToggle (page (invoke_all listeners o)) = true
    ∧ navClose (page (invoke_all listeners o)) = navClose (page o)
    ∧ uncaught (invoke_all listeners o) = uncaught o).
  { apply (invoke_all_preserves (λ o', is_Some (navMenu (page o'))
      ∧ navToggle (page o') = true ∧ navClose (page o') = navClose (page o)
      ∧ uncaught o' = uncaught o)); [|done].
    intros listener o' Hin (Hm' & Ht' & Hc' & Hu').
    assert (Hl : ∀ st, is_Some (navMenu st) → navToggle st = true →
      ∃ st', listener st = Some st' ∧ is_Some (navMenu st')
        ∧ navToggle st' = true ∧ navClose st' = navClose st).
    { destruct (click_listeners_cases _ _ _ Hin) as [-> | ->];
        [apply openMenu_wired | apply closeMenu_wired]. }
    destruct (invoke_wired listener o' Hl Hm' Ht') as (? & ? & ? & ?).
    repeat split; congruence. }
  destruct Hall as (Hm' & Ht' & Hc' & Hu').
  destruct (invoke_wired (onDocumentClick path) _
    (onDocumentClick_wired path) Hm' Ht') as (? & ? & ? & ?).
  repeat split; congruence.
Qed.

Lemma handle_wired ev o :
  is_Some (navMenu (page o)) → navToggle (page o) = true →
  is_Some (navMenu (page (handle ev o)))
  ∧ navToggle (page (handle ev o)) = true
  ∧ uncaught (handle ev o) = uncaught o.
Proof.
  intros Hm Ht. destruct ev as [path | key]; simpl.
  - destruct (click_wired path o Hm Ht) as (? & ? & ? & ?). done.
  - destruct (invoke_wired (onKeydown key) o (onKeydown_wired key) Hm Ht)
      as (? & ? & ? & ?). done.
Qed.

(** X11: on a page that has the menu and the hamburger button, no
    menu listener ever throws: through every run of clicks and key
    presses the count of uncaught errors stays where it was, and the menu
    is still there. *)
Theorem menu_listeners_never_throw evs o classes :
  navMenu (page o) = Some classes → navToggle (page o) = true →
  uncaught (MobileNav.run evs o) = uncaught o
  ∧ is_Some (navMenu (page (MobileNav.run evs o))).
Proof.
  intros Hm Ht. assert (Hsome : is_Some (navMenu (page o))) by eauto.
  clear Hm. revert o Hsome Ht.
  induction evs as [|ev evs IH]; intros o Hm Ht; simpl; [done|].
  destruct (handle_wired ev o Hm Ht) as (Hm' & Ht' & Hu').
  destruct (IH _ Hm' Ht') as [Hu Hs]. split; [congruence | done].
Qed.

Lemma menu_listeners_never_throw_witness :
  uncaught (MobileNav.run
              [Click [hamburger]; Keydown "Escape"; Click [elsewhere]]
              (mkOutcome closed_page 0)) = uncaught (mkOutcome closed_page 0)
  ∧ is_Some (navMenu (page (MobileNav.run
              [Click [hamburger]; Keydown "Escape"; Click [elsewhere]]
              (mkOutcome closed_page 0)))).
Proof.
  apply (menu_listeners_never_throw
           [Click [hamburger]; Keydown "Escape"; Click [elsewhere]]
           (mkOutcome closed_page 0) {["nav-menu"]}); reflexivity.
Defined.

(** X12: on a page without [#nav-menu] every click, wherever it lands,
    ends in an uncaught [TypeError] of the document's click listener, and
    so does the Escape key; the page itself is left as it is. *)
Theorem missing_menu_throws path o :
  navMenu (page o) = None →
  page (click path o) = page o
  ∧ (uncaught o < uncaught (click path o))%nat
  ∧ keydown "Escape" o = mkOutcome (page o) (S (uncaught o)).
Proof.
  intros Hm. unfold click.
  set (listeners := path ≫= click_listeners (page o)).
  assert (Hall : page (invoke_all listeners o) = page o
    ∧ (uncaught o ≤ uncaught (invoke_all listeners o))%nat).
  { apply (invoke_all_preserves (λ o', page o' = page o
      ∧ (uncaught o ≤ uncaught o')%nat)); [|done].
    intros listener o' Hin [Hp Hu]. unfold invoke.
    destruct (click_listeners_cases _ _ _ Hin) as [-> | ->];
      [unfold openMenu | unfold closeMenu]; rewrite Hp, Hm; simpl;
      (split; [done | lia]). }
  destruct Hall as [Hp Hu]. split; [|split].
  - unfold invoke, onDocumentClick. by rewrite Hp, Hm.
  - unfold invoke, onDocumentClick. rewrite Hp, Hm. simpl. lia.
  - unfold keydown, invoke, onKeydown. simpl. by rewrite Hm.
Qed.

Lemma missing_menu_throws_witness :
  page (click [elsewhere] (mkOutcome (mkPage None true true "") 0))
  = page (mkOutcome (mkPage None true true "") 0)
  ∧ (uncaught (mkOutcome (mkPage None true true "") 0)
     < uncaught (click [elsewhere] (mkOutcome (mkPage None true true "") 0)))%nat
  ∧ keydown "Escape" (mkOutcome (mkPage None true true "") 0)
    = mkOutcome (page (mkOutcome (mkPage None true true "") 0))
        (S (uncaught (mkOutcome (mkPage None true true "") 0))).
Proof.
  apply (missing_menu_throws [elsewhere]
           (mkOutcome (mkPage None true true "") 0)).
  reflexivity.
Defined.

(** ** The scroll lock *)

Lemma scroll_lock_openMenu st st' : openMenu st = Some st' → scroll_lock_ok st'.
Proof.
  intros Hst'. destruct (openMenu_Some _ _ Hst') as (Ha & Ho & _).
  unfold scroll_lock_ok. by rewrite Ha, Ho.
Qed.

Lemma scroll_lock_closeMenu st st' : closeMenu st = Some st' → scroll_lock_ok st'.
Proof.
  intros Hst'. destruct (closeMenu_Some _ _ Hst') as (Ha & Ho & _).
  unfold scroll_lock_ok. by rewrite Ha, Ho.
Qed.

Lemma scroll_lock_onDocumentClick path st st' :
  onDocumentClick path st = Some st' → scroll_lock_ok st → scroll_lock_ok st'.
Proof.
  unfold onDocumentClick. destruct (navMenu st) as [classes|]; [|done].
  destruct (bool_decide _ && negb _); [|by intros [= <-]].
  destruct (navToggle st); [|done].
  destruct (negb _); [|by intros [= <-]].
  intros Hst' _. by eapply scroll_lock_closeMenu.
Qed.

Lemma scroll_lock_onKeydown key st st' :
  onKeydown key st = Some st' → scroll_lock_ok st → scroll_lock_ok st'.
Proof.
  unfold onKeydown. destruct (String.eqb key "Escape"); [|by intros [= <-]].
  destruct (navMenu st) as [classes|]; [|done].
  destruct (bool_decide _); [|by intros [= <-]].
  intros Hst' _. by eapply scroll_lock_closeMenu.
Qed.

Lemma scroll_lock_invoke listener o :
  (∀ st st', listener st = Some st' → scroll_lock_ok st → scroll_lock_ok st') →
  scroll_lock_ok (page o) → scroll_lock_ok (page (invoke listener o)).
Proof.
  intros Hl Ho. unfold invoke.
  destruct (listener (page o)) as [st'|] eqn:Hst'; simpl; [|done].
  by eapply Hl.
Qed.

Lemma scroll_lock_handle ev o :
  scroll_lock_ok (page o) → scroll_lock_ok (page (handle ev o)).
Proof.
  intros Ho. destruct ev as [path | key]; simpl.
  - unfold click. apply scroll_lock_invoke;
      [apply scroll_lock_onDocumentClick|].
    apply (invoke_all_preserves (λ o', scroll_lock_ok (page o'))); [|done].
    intros listener o' Hin Ho'. apply scroll_lock_invoke; [|done].
    intros st st' Hst' _.
    destruct (click_listeners_cases _ _ _ Hin) as [-> | ->];
      [by eapply scroll_lock_openMenu | by eapply scroll_lock_closeMenu].
  - unfold keydown. by apply scroll_lock_invoke;
      [apply scroll_lock_onKeydown|].
Qed.

(** X13: the scroll lock follows the menu.  If, to begin with, the body
    has [overflow: hidden] exactly when the menu is 'active', this is so
    again after every run of clicks and key presses, on any page (with or
    without the menu elements). *)
Theorem scroll_lock_follows_menu evs o :
  scroll_lock_ok (page o) → scroll_lock_ok (page (MobileNav.run evs o)).
Proof.
  revert o. induction evs as [|ev evs IH]; intros o Ho; simpl; [done|].
  by apply IH, scroll_lock_handle.
Qed.

Lemma scroll_lock_follows_menu_witness :
  scroll_lock_ok (page (MobileNav.run
    [Click [hamburger]; Click [menu_panel]; Click [menu_link; menu_panel]]
    (mkOutcome closed_page 0))).
Proof.
  apply (scroll_lock_follows_menu
    [Click [hamburger]; Click [menu_panel]; Click [menu_link; menu_panel]]
    (mkOutcome closed_page 0)).
  by vm_compute.
Defined.

(** ** What a click does to the menu *)

Lemma invoke_all_closers listeners o :
  Forall (λ listener, listener = closeMenu) listeners →
  is_Some (navMenu (page o)) →
  is_Some (navMenu (page (invoke_all listeners o)))
  ∧ navToggle (page (invoke_all listeners o)) = navToggle (page o)
  ∧ (listeners = [] ∧ invoke_all listeners o = o
     ∨ listeners ≠ [] ∧ is_active (page (invoke_all listeners o)) = false).
Proof.
  revert o. induction listeners as [|listener listeners IH];
    intros o Hall Hm; [by eauto|].
  apply Forall_cons in Hall as [-> Hall]. rewrite invoke_all_cons.
  destruct (closeMenu_is_Some _ Hm) as [st' Hst'].
  destruct (closeMenu_Some _ _ Hst') as (Ha & _ & Hm' & Ht' & _).
  assert (Hinv : invoke closeMenu o = mkOutcome st' (uncaught o))
    by (unfold invoke; by rewrite Hst').
  rewrite Hinv. destruct (IH (mkOutcome st' (uncaught o)) Hall Hm')
    as (Hm'' & Ht'' & Hcases).
  split; [done|]. split; [etrans; [exact Ht'' | exact Ht']|].
  right. split; [done|].
  destruct Hcases as [[_ ->] | [_ Hinactive]]; done.
Qed.

Lemma invoke_all_openers listeners o :
  Forall (λ listener, listener = openMenu) listeners → listeners ≠ [] →
  is_Some (navMenu (page o)) →
  is_active (page (invoke_all listeners o)) = true
  ∧ overflow (page (invoke_all listeners o)) = "hidden"
  ∧ is_Some (navMenu (page (invoke_all listeners o)))
  ∧ navToggle (page (invoke_all listeners o)) = navToggle (page o).
Proof.
  revert o. induction listeners as [|listener listeners IH];
    intros o Hall Hne Hm; [done|].
  apply Forall_cons in Hall as [-> Hall]. rewrite invoke_all_cons.
  destruct (openMenu_is_Some _ Hm) as [st' Hst'].
  destruct (openMenu_Some _ _ Hst') as (Ha & Hov & Hm' & Ht' & _).
  assert (Hinv : invoke openMenu o = mkOutcome st' (uncaught o))
    by (unfold invoke; by rewrite Hst').
  rewrite Hinv. destruct listeners as [|listener' listeners'].
  - simpl. done.
  - destruct (IH (mkOutcome st' (uncaught o)) Hall) as (? & ? & ? & Ht'');
      [done | done |].
    split; [done|]. split; [done|]. split; [done|].
    etrans; [exact Ht'' | exact Ht'].
Qed.

Lemma onDocumentClick_closes path st :
  is_Some (navMenu st) → navToggle st = true →
  on_path is_navToggle path = false →
  on_path is_navMenu path = false ∨ is_active st = false →
  ∃ st', onDocumentClick path st = Some st' ∧ is_active st' = false.
Proof.
  intros [classes Hm] Ht Htoggle Hcases. unfold onDocumentClick.
  rewrite Hm, Ht, Htoggle. simpl.
  assert (Hactive : is_active st = bool_decide ("active" ∈ classes))
    by (unfold is_active; by rewrite Hm).
  destruct (bool_decide ("active" ∈ classes)) eqn:Hin; simpl.
  - destruct Hcases as [-> | Hinactive]; [simpl | congruence].
    destruct (closeMenu_is_Some st) as [st' Hst']; [by eauto|].
    exists st'. split; [done|]. by destruct (closeMenu_Some _ _ Hst').
  - eauto.
Qed.

Lemma onDocumentClick_keeps path st :
  is_Some (navMenu st) → navToggle st = true →
  on_path is_navToggle path = true ∨ on_path is_navMenu path = true →
  onDocumentClick path st = Some st.
Proof.
  intros [classes Hm] Ht Hcases. unfold onDocumentClick. rewrite Hm, Ht.
  destruct Hcases as [-> | ->]; simpl.
  - by destruct (bool_decide _ && negb _).
  - by rewrite andb_false_r.
Qed.

(** X14: on a page with the menu and the hamburger, a click that does
    not pass through the hamburger leaves the menu closed whenever it
    lands outside the menu or passes through a nav link or the close
    button, whatever the menu's state before; no error is thrown. *)
Theorem click_away_closes_menu path o classes :
  navMenu (page o) = Some classes → navToggle (page o) = true →
  on_path is_navToggle path = false →
  on_path is_navMenu path = false ∨ on_path (closes (page o)) path = true →
  is_active (page (click path o)) = false
  ∧ uncaught (click path o) = uncaught o.
Proof.
  intros Hm Ht Htoggle Hcases.
  assert (Hsome : is_Some (navMenu (page o))) by eauto.
  split; [|by destruct (click_wired path o Hsome Ht) as (_ & _ & _ & ?)].
  unfold click. set (listeners := path ≫= click_listeners (page o)).
  destruct (invoke_all_closers listeners o) as (Hm' & Ht' & Hafter);
    [by apply click_listeners_no_toggle | done |].
  assert (Hdoc : on_path is_navMenu path = false
    ∨ is_active (page (invoke_all listeners o)) = false).
  { destruct Hafter as [[Hnil _] | [_ Hinactive]]; [|by right].
    destruct Hcases as [Hout | Hcloser]; [by left|].
    by apply click_listeners_closer in Hcloser. }
  destruct (onDocumentClick_closes path (page (invoke_all listeners o)))
    as (st' & Hst' & Hinactive); [done | congruence | done | done |].
  unfold invoke. by rewrite Hst'.
Qed.

Lemma click_away_closes_menu_witness :
  is_active (page (click [elsewhere]
    (mkOutcome (mkPage (Some {["nav-menu"; "active"]}) true true "hidden") 0)))
  = false
  ∧ uncaught (click [elsewhere]
      (mkOutcome (mkPage (Some {["nav-menu"; "active"]}) true true "hidden") 0))
    = uncaught
        (mkOutcome (mkPage (Some {["nav-menu"; "active"]}) true true "hidden") 0).
Proof.
  apply (click_away_closes_menu [elsewhere]
    (mkOutcome (mkPage (Some {["nav-menu"; "active"]}) true true "hidden") 0)
    {["nav-menu"; "active"]}).
  - reflexivity.
  - reflexivity.
  - reflexivity.
  - left. reflexivity.
Defined.

(** X15: a click on the hamburger opens the menu and locks scrolling,
    and the document's click listener, which runs after it, does not
    close the menu again.  This holds for every path through the
    hamburger that meets no nav link and no close button. *)
Theorem hamburger_click_opens_menu path o classes :
  navMenu (page o) = Some classes → navToggle (page o) = true →
  on_path is_navToggle path = true →
  on_path (closes (page o)) path = false →
  is_active (page (click path o)) = true
  ∧ overflow (page (click path o)) = "hidden".
Proof.
  intros Hm Ht Htoggle Hclosers.
  assert (Hsome : is_Some (navMenu (page o))) by eauto.
  unfold click. set (listeners := path ≫= click_listeners (page o)).
  destruct (invoke_all_openers listeners o) as (Ha & Hov & Hm' & Ht');
    [by apply click_listeners_no_closer
    | by apply click_listeners_toggle | done |].
  unfold invoke. rewrite onDocumentClick_keeps; [done | done | congruence |].
  by left.
Qed.

Lemma hamburger_click_opens_menu_witness :
  is_active (page (click [hamburger] (mkOutcome closed_page 0))) = true
  ∧ overflow (page (click [hamburger] (mkOutcome closed_page 0))) = "hidden".
Proof.
  apply (hamburger_click_opens_menu [hamburger] (mkOutcome closed_page 0)
           {["nav-menu"]}); reflexivity.
Defined.

(** X16: a click inside the menu that meets neither a nav link, nor the
    close button, nor the hamburger changes nothing: an open menu stays
    open. *)
Theorem click_inside_menu_keeps_it path o classes :
  navMenu (page o) = Some classes → navToggle (page o) = true →
  on_path is_navMenu path = true →
  on_path is_navToggle path = false →
  on_path (closes (page o)) path = false →
  click path o = o.
Proof.
  intros Hm Ht Hmenu Htoggle Hclosers. unfold click.
  rewrite click_listeners_none by done. simpl.
  unfold invoke. rewrite onDocumentClick_keeps; [by destruct o | eauto | done |].
  by right.
Qed.

Lemma click_inside_menu_keeps_it_witness :
  click [menu_panel]
    (mkOutcome (mkPage (Some {["nav-menu"; "active"]}) true true "hidden") 0)
  = mkOutcome (mkPage (Some {["nav-menu"; "active"]}) true true "hidden") 0.
Proof.
  apply (click_inside_menu_keeps_it [menu_panel]
    (mkOutcome (mkPage (Some {["nav-menu"; "active"]}) true true "hidden") 0)
    {["nav-menu"; "active"]}); reflexivity.
Defined.

(** X17: the Escape key closes the menu and unlocks scrolling; any other
    key changes nothing, also on a page without the menu. *)
Theorem escape_closes_menu o classes :
  navMenu (page o) = Some classes →
  is_active (page (keydown "Escape" o)) = false
  ∧ (is_active (page o) = true → overflow (page (keydown "Escape" o)) = "")
  ∧ uncaught (keydown "Escape" o) = uncaught o
  ∧ (∀ o' key, key ≠ "Escape" → keydown key o' = o').
Proof.
  intros Hm. split; [|split; [|split]].
  - unfold keydown, invoke, onKeydown. simpl. rewrite Hm.
    destruct (bool_decide ("active" ∈ classes)) eqn:Hin.
    + destruct (closeMenu_is_Some (page o)) as [st' Hst']; [by eauto|].
      rewrite Hst'. by destruct (closeMenu_Some _ _ Hst').
    + simpl. unfold is_active. by rewrite Hm.
  - intros Hactive. unfold keydown, invoke, onKeydown. simpl. rewrite Hm.
    unfold is_active in Hactive. rewrite Hm in Hactive. rewrite Hactive.
    destruct (closeMenu_is_Some (page o)) as [st' Hst']; [by eauto|].
    rewrite Hst'. by destruct (closeMenu_Some _ _ Hst') as (_ & ? & _).
  - unfold keydown, invoke, onKeydown. simpl. rewrite Hm.
    destruct (bool_decide ("active" ∈ classes)); [|done].
    destruct (closeMenu_is_Some (page o)) as [st' Hst']; [by eauto|].
    by rewrite Hst'.
  - intros o' key Hkey. unfold keydown, invoke, onKeydown.
    apply String.eqb_neq in Hkey. rewrite Hkey. by destruct o'.
Qed.

Lemma escape_closes_menu_witness :
  is_active (page (keydown "Escape"
    (mkOutcome (mkPage (Some {["active"]}) true true "hidden") 0))) = false
  ∧ overflow (page (keydown "Escape"
      (mkOutcome (mkPage (Some {["active"]}) true true "hidden") 0))) = ""
  ∧ keydown "Enter" (mkOutcome (mkPage None false false "") 2)
    = mkOutcome (mkPage None false false "") 2.
Proof.
  pose proof (escape_closes_menu
    (mkOutcome (mkPage (Some {["active"]}) true true "hidden") 0)
    {["active"]} eq_refl) as (Hclosed & Hoverflow & _ & Hother).
  split; [exact Hclosed|]. split.
  - apply Hoverflow. by vm_compute.
  - apply Hother. discriminate.
Defined.

End Menu.


(** * The header on scroll *)

Section Header.

Import HeaderScroll.

Implicit Types (w : Window) (y : Q) (classes : gset string)
  (evs : list HeaderScroll.Event).

Lemma above_50 y : negb (Qle_bool y 50) = true ↔ (50 < y)%Q.
Proof.
  rewrite negb_true_iff, <-not_true_iff_false, Qle_bool_iff. split.
  - apply Qnot_le_lt.
  - apply Qlt_not_le.
Qed.

Lemma updateHeader_Some w classes :
  header w = Some classes →
  ∃ w', updateHeader w = Some w'
    ∧ (is_scrolled w' = true ↔ (50 < scrollY w)%Q)
    ∧ is_Some (header w') ∧ scrollY w' = scrollY w
    ∧ lastScrollY w' = scrollY w ∧ ticking w' = false
    ∧ frameRequests w' = frameRequests w.
Proof.
  intros Hh. unfold updateHeader. rewrite Hh. eexists. split; [done|].
  unfold is_scrolled; simpl. split; [|by eauto 10].
  rewrite <-above_50. destruct (negb (Qle_bool (scrollY w) 50)).
  - rewrite bool_decide_eq_true_2 by set_solver. done.
  - rewrite bool_decide_eq_false_2 by set_solver. done.
Qed.

(** Either nothing is requested, or one callback is and [ticking] says
    so; the header is there. *)
Lemma throttle_handle ev w :
  is_Some (header w) →
  (ticking w = false ∧ frameRequests w = 0%nat)
  ∨ (ticking w = true ∧ frameRequests w = 1%nat) →
  is_Some (header (HeaderScroll.handle ev w))
  ∧ ((ticking (HeaderScroll.handle ev w) = false
      ∧ frameRequests (HeaderScroll.handle ev w) = 0%nat)
     ∨ (ticking (HeaderScroll.handle ev w) = true
        ∧ frameRequests (HeaderScroll.handle ev w) = 1%nat)).
Proof.
  intros Hh Hinv. destruct ev as [y|]; simpl.
  - unfold onScroll; simpl.
    destruct Hinv as [[-> ->] | [-> ->]]; simpl; eauto.
  - unfold animationFrame.
    destruct Hinv as [[Ht ->] | [Ht ->]]; simpl; [by eauto|].
    unfold run_callback. destruct Hh as [classes Hh].
    destruct (updateHeader_Some
      (mkWindow (scrollY w) (header w) (lastScrollY w) (ticking w) 0) classes)
      as (w' & -> & _ & ? & _ & _ & ? & ?); [done|]. simpl. eauto.
Qed.

Lemma throttle_run evs w :
  is_Some (header w) →
  (ticking w = false ∧ frameRequests w = 0%nat)
  ∨ (ticking w = true ∧ frameRequests w = 1%nat) →
  is_Some (header (HeaderScroll.run evs w))
  ∧ ((ticking (HeaderScroll.run evs w) = false
      ∧ frameRequests (HeaderScroll.run evs w) = 0%nat)
     ∨ (ticking (HeaderScroll.run evs w) = true
        ∧ frameRequests (HeaderScroll.run evs w) = 1%nat)).
Proof.
  revert w. induction evs as [|ev evs IH]; intros w Hh Hinv; simpl; [done|].
  destruct (throttle_handle ev w Hh Hinv) as [Hh' Hinv']. by apply IH.
Qed.

(** X18: the scroll listener requests at most one [updateHeader] per
    animation frame.  On a page with a header, however many scroll events
    arrive and however they interleave with frames, never more than one
    callback is waiting, and one is waiting exactly when [ticking] is
    set. *)
Theorem at_most_one_frame_request evs y classes :
  let w := HeaderScroll.run evs (start y (Some classes)) in
  (frameRequests w ≤ 1)%nat
  ∧ (ticking w = true ↔ frameRequests w = 1%nat).
Proof.
  intros w.
  destruct (throttle_run evs (start y (Some classes))) as [_ Hinv];
    [by eauto | by left |].
  fold w in Hinv. destruct Hinv as [[-> ->] | [-> ->]]; split; (lia || done).
Qed.

(** X19: the header shows the position of the last scroll.  After any
    history, a scroll to [y] followed by an animation frame leaves the
    header with 'scrolled' exactly when [y > 50] (at 50 itself it is
    off), [lastScrollY] equal to [y] and nothing waiting. *)
Theorem header_follows_last_scroll evs y0 classes y :
  let w := HeaderScroll.run (evs ++ [ScrollTo y; AnimationFrame])
             (start y0 (Some classes)) in
  (is_scrolled w = true ↔ (50 < y)%Q)
  ∧ lastScrollY w = y ∧ ticking w = false ∧ frameRequests w = 0%nat.
Proof.
  intros w. unfold w, HeaderScroll.run. rewrite foldl_app. simpl.
  fold (HeaderScroll.run evs (start y0 (Some classes))).
  destruct (throttle_run evs (start y0 (Some classes))) as [Hh Hinv];
    [by eauto | by left |].
  set (w0 := HeaderScroll.run evs (start y0 (Some classes))) in *.
  destruct Hh as [classes0 Hh].
  assert (Hscroll : ∃ w1,
    onScroll (mkWindow y (header w0) (lastScrollY w0) (ticking w0)
                (frameRequests w0)) = w1
    ∧ scrollY w1 = y ∧ header w1 = Some classes0 ∧ frameRequests w1 = 1%nat).
  { eexists. split; [done|]. unfold onScroll; simpl.
    destruct Hinv as [[-> ->] | [-> ->]]; simpl; done. }
  destruct Hscroll as (w1 & -> & Hy & Hh1 & Hreq). unfold animationFrame.
  rewrite Hreq. simpl. unfold run_callback.
  destruct (updateHeader_Some
    (mkWindow (scrollY w1) (header w1) (lastScrollY w1) (ticking w1) 0)
    classes0) as (w' & -> & Hs & _ & _ & Hl & Ht & Hr); [done|].
  simpl in *. rewrite Hy in Hs, Hl. done.
Qed.

(** X20: on a page without [#header] the first callback throws before
    it resets [ticking], so the flag stays set: after the first scroll
    and frame no callback is ever requested again, whatever follows. *)
Theorem missing_header_stops_requests evs y0 y :
  let w := HeaderScroll.run ([ScrollTo y; AnimationFrame] ++ evs)
             (start y0 None) in
  ticking w = true ∧ frameRequests w = 0%nat ∧ header w = None.
Proof.
  intros w. unfold w.
  assert (Hstuck : ∀ w0, ticking w0 = true → frameRequests w0 = 0%nat →
    header w0 = None →
    ticking (HeaderScroll.run evs w0) = true
    ∧ frameRequests (HeaderScroll.run evs w0) = 0%nat
    ∧ header (HeaderScroll.run evs w0) = None).
  { induction evs as [|ev evs' IH]; intros w0 Ht Hr Hh; simpl; [done|].
    apply IH; destruct ev as [y'|]; simpl;
      unfold onScroll, animationFrame; simpl; rewrite ?Ht, ?Hr; done. }
  unfold HeaderScroll.run. rewrite foldl_app.
  fold (HeaderScroll.run evs). by apply Hstuck.
Qed.

End Header.


(** * The active navigation link *)

Section Links.

Import ActiveLink.

Implicit Types (scrollY : Q) (s : SectionBox) (sections : list SectionBox)
  (links : NavLinks) (i j : nat).

Lemma visit_links_not_current scrollY links s :
  current scrollY s = false → visit_links scrollY links s = links.
Proof.
  unfold current, visit_links, visit. destruct (navLink s); [|done..].
  by intros ->.
Qed.

Lemma visit_links_current scrollY links s i :
  current scrollY s = true → navLink s = Found i →
  visit_links scrollY links s
  = alter (λ classes, classes ∪ {["active"]}) i
      ((λ classes, classes ∖ {["active"]}) <$> links).
Proof.
  unfold current, visit_links, visit. intros Hc Hi. rewrite Hi in *.
  by rewrite Hc.
Qed.

Lemma visit_all_not_current scrollY sections links :
  Forall (λ s, current scrollY s = false) sections →
  visit_all scrollY sections links = links.
Proof.
  unfold visit_all. revert links.
  induction sections as [|s sections IH]; intros links Hall; simpl; [done|].
  apply Forall_cons in Hall as [Hs Hall].
  rewrite visit_links_not_current by done. by apply IH.
Qed.

Lemma visit_all_app scrollY sections sections' links :
  visit_all scrollY (sections ++ sections') links
  = visit_all scrollY sections' (visit_all scrollY sections links).
Proof. unfold visit_all. apply foldl_app. Qed.

(** Apart from 'active', no class of a link changes, and no link is
    added or lost. *)
Lemma visit_links_strip scrollY links s j :
  (λ classes, classes ∖ {["active"]}) <$> visit_links scrollY links s !! j
  = (λ classes, classes ∖ {["active"]}) <$> links !! j.
Proof.
  unfold visit_links, visit. destruct (navLink s) as [i| |]; [|done..].
  destruct (in_view scrollY s); [|done]. simpl.
  destruct (decide (i = j)) as [->|Hne].
  - rewrite list_lookup_alter_eq, list_lookup_fmap.
    destruct (links !! j) as [classes|]; simpl; [|done]. f_equal. set_solver.
  - rewrite list_lookup_alter_ne, list_lookup_fmap by done.
    destruct (links !! j) as [classes|]; simpl; [|done]. f_equal. set_solver.
Qed.

Lemma visit_all_strip scrollY sections links j :
  (λ classes, classes ∖ {["active"]}) <$> visit_all scrollY sections links !! j
  = (λ classes, classes ∖ {["active"]}) <$> links !! j.
Proof.
  unfold visit_all. revert links.
  induction sections as [|s sections IH]; intros links; simpl; [done|].
  by rewrite IH, visit_links_strip.
Qed.

Lemma length_visit_all scrollY sections links :
  length (visit_all scrollY sections links) = length links.
Proof.
  unfold visit_all. revert links.
  induction sections as [|s sections IH]; intros links; simpl; [done|].
  rewrite IH. unfold visit_links, visit. destruct (navLink s); [|done..].
  destruct (in_view scrollY s); [|done]. simpl.
  by rewrite length_alter, length_fmap.
Qed.

(** The call, section by section, is the visit of the sections reached;
    it throws exactly when some section's lookup does. *)
Lemma highlightNavLink_reached scrollY sections links :
  links_after (highlightNavLink scrollY sections links)
  = visit_all scrollY (reached sections) links.
Proof.
  unfold visit_all. revert links.
  induction sections as [|s sections IH]; intros links; simpl; [done|].
  assert (Hvisit : navLink s ≠ InvalidSelector →
    visit scrollY links s = Some (visit_links scrollY links s)).
  { unfold visit_links, visit. destruct (navLink s); [|done..].
    by destruct (in_view scrollY s). }
  destruct (navLink s) as [i| |] eqn:Hs; simpl.
  - rewrite Hvisit by done. apply IH.
  - rewrite Hvisit by done. apply IH.
  - unfold visit. by rewrite Hs.
Qed.

Lemma syntax_error_highlightNavLink scrollY sections links :
  syntax_error (highlightNavLink scrollY sections links) = true ↔
  ∃ s, s ∈ sections ∧ navLink s = InvalidSelector.
Proof.
  revert links. induction sections as [|s sections IH]; intros links; simpl.
  - split; [done|]. intros (s & Hs & _). by apply elem_of_nil in Hs.
  - unfold visit. destruct (navLink s) as [i| |] eqn:Hs; simpl.
    + destruct (in_view scrollY s); rewrite IH; split.
      * intros (s' & Hin & Hbad). exists s'. split; [by right | done].
      * intros (s' & Hin & Hbad).
        apply elem_of_cons in Hin as [-> | Hin]; [congruence | eauto].
      * intros (s' & Hin & Hbad). exists s'. split; [by right | done].
      * intros (s' & Hin & Hbad).
        apply elem_of_cons in Hin as [-> | Hin]; [congruence | eauto].
    + rewrite IH; split.
      * intros (s' & Hin & Hbad). exists s'. split; [by right | done].
      * intros (s' & Hin & Hbad).
        apply elem_of_cons in Hin as [-> | Hin]; [congruence | eauto].
    + split; [|done]. intros _. exists s. split; [by left | done].
Qed.

Lemma reached_all sections :
  Forall (λ s, navLink s ≠ InvalidSelector) sections →
  reached sections = sections.
Proof.
  induction sections as [|s sections IH]; intros Hall; simpl; [done|].
  apply Forall_cons in Hall as [Hs Hall].
  destruct (navLink s); [by rewrite IH | by rewrite IH | done].
Qed.

Lemma reached_sublist sections s : s ∈ reached sections → s ∈ sections.
Proof.
  induction sections as [|s' sections IH]; simpl; [done|].
  destruct (navLink s'); [| |by intros ?%elem_of_nil];
    (intros [-> | Hin]%elem_of_cons; [by left | right; by apply IH]).
Qed.

(** The last section that passes the test, with what comes after it. *)
Lemma last_filter_split {A} (P : A → Prop) `{∀ x, Decision (P x)}
    (l : list A) x :
  last (filter P l) = Some x →
  ∃ l1 l2, l = (l1 ++ x :: l2)%list ∧ P x ∧ Forall (λ y, ¬ P y) l2.
Proof.
  induction l as [|y l IH] using rev_ind; [done|].
  rewrite filter_app. destruct (decide (P y)) as [Hy|Hy].
  - rewrite (filter_cons_True P y []) by done. rewrite filter_nil, last_snoc.
    intros [= ->]. exists l, []. by repeat constructor.
  - rewrite (filter_cons_False P y []) by done.
    rewrite filter_nil, app_nil_r. intros Hlast.
    destruct (IH Hlast) as (l1 & l2 & -> & Hx & Hl2).
    exists l1, (l2 ++ [y])%list. split; [by rewrite <-app_assoc|].
    split; [done|]. apply Forall_app. by repeat constructor.
Qed.

Lemma is_active_link_visit scrollY links s i j :
  current scrollY s = true → navLink s = Found i → (i < length links)%nat →
  is_active_link (visit_links scrollY links s) j = true ↔ j = i.
Proof.
  intros Hc Hi Hlen. rewrite (visit_links_current _ _ _ i) by done.
  unfold is_active_link. destruct (decide (i = j)) as [->|Hne].
  - rewrite list_lookup_alter_eq, list_lookup_fmap.
    destruct (lookup_lt_is_Some_2 links j Hlen) as [classes ->]. simpl.
    rewrite bool_decide_eq_true_2 by set_solver. done.
  - rewrite list_lookup_alter_ne, list_lookup_fmap by done.
    destruct (links !! j) as [classes|]; simpl; [|naive_solver].
    rewrite bool_decide_eq_false_2 by set_solver. naive_solver.
Qed.

(** X21: among the sections that [highlightNavLink] visits (all of
    them when every selector is valid, otherwise those before the first
    section whose selector makes [querySelector] throw), when at least
    one that has a nav link is in view, exactly one nav link is 'active'
    after the call: the link of the last such section in document order.
    Every other link loses the class, and no other class of any link
    changes.  With every selector valid the call ends without an error
    and the sections visited are all the sections. *)
Theorem one_active_link scrollY sections links s i :
  last (filter (λ s, current scrollY s = true) (reached sections)) = Some s →
  navLink s = Found i → (i < length links)%nat →
  active_links (links_after (highlightNavLink scrollY sections links)) = [i]
  ∧ (∀ j, (λ classes, classes ∖ {["active"]})
            <$> links_after (highlightNavLink scrollY sections links) !! j
          = (λ classes, classes ∖ {["active"]}) <$> links !! j)
  ∧ (Forall (λ s, navLink s ≠ InvalidSelector) sections →
     reached sections = sections
     ∧ syntax_error (highlightNavLink scrollY sections links) = false).
Proof.
  intros Hlast Hi Hlen. rewrite highlightNavLink_reached.
  split; [|split; [intros j; apply visit_all_strip|]].
  2: { intros Hvalid. split; [by apply reached_all|].
       apply not_true_is_false. rewrite syntax_error_highlightNavLink.
       intros (s' & Hin & Hbad).
       by eapply (proj1 (Forall_forall _ _) Hvalid). }
  apply last_filter_split in Hlast as (before & after & -> & Hs & Hafter).
  rewrite visit_all_app.
  change (s :: after) with ([s] ++ after)%list. rewrite visit_all_app.
  rewrite (visit_all_not_current _ after).
  2: { eapply Forall_impl; [exact Hafter|]. intros s' Hs'. simpl in Hs'.
       by destruct (current scrollY s'). }
  set (links' := visit_all scrollY before links).
  assert (Hlen' : (i < length links')%nat)
    by (unfold links'; by rewrite length_visit_all).
  change (visit_all scrollY [s] links') with (visit_links scrollY links' s).
  apply NoDup_only; [apply NoDup_filter, NoDup_seq|].
  intros j. unfold active_links. rewrite list_elem_of_filter, elem_of_seq.
  rewrite (is_active_link_visit _ _ _ i) by done.
  split; [by intros [-> _]|]. intros ->. split; [done|].
  rewrite (visit_links_current _ _ _ i), length_alter, length_fmap by done. lia.
Qed.

Lemma one_active_link_witness :
  active_links (links_after (highlightNavLink 700
    [mkSection 0 600 (Found 0%nat); mkSection 600 400 (Found 1%nat);
     mkSection 1000 500 NoMatch]
    [{["nav-link"; "active"]}; {["nav-link"]}])) = [1%nat]
  ∧ (∀ j, (λ classes, classes ∖ {["active"]})
            <$> links_after (highlightNavLink 700
                  [mkSection 0 600 (Found 0%nat); mkSection 600 400 (Found 1%nat);
                   mkSection 1000 500 NoMatch]
                  [{["nav-link"; "active"]}; {["nav-link"]}]) !! j
          = (λ classes, classes ∖ {["active"]})
              <$> [{["nav-link"; "active"]}; {["nav-link"]}] !! j)
  ∧ reached
      [mkSection 0 600 (Found 0%nat); mkSection 600 400 (Found 1%nat);
       mkSection 1000 500 NoMatch]
    = [mkSection 0 600 (Found 0%nat); mkSection 600 400 (Found 1%nat);
       mkSection 1000 500 NoMatch]
  ∧ syntax_error (highlightNavLink 700
      [mkSection 0 600 (Found 0%nat); mkSection 600 400 (Found 1%nat);
       mkSection 1000 500 NoMatch]
      [{["nav-link"; "active"]}; {["nav-link"]}]) = false.
Proof.
  destruct (one_active_link 700
    [mkSection 0 600 (Found 0%nat); mkSection 600 400 (Found 1%nat);
     mkSection 1000 500 NoMatch]
    [{["nav-link"; "active"]}; {["nav-link"]}]
    (mkSection 600 400 (Found 1%nat)) 1) as (Hactive & Hother & Hvalid).
  - by vm_compute.
  - reflexivity.
  - simpl. lia.
  - split; [exact Hactive|]. split; [exact Hother|].
    apply Hvalid. repeat constructor; discriminate.
Defined.

(** A section whose id breaks the selector stops the call: the section
    in view after it keeps its link without 'active', and the link
    highlighted before stays highlighted. *)
Example invalid_selector_stops_highlight :
  highlightNavLink 700
    [mkSection 0 600 InvalidSelector; mkSection 600 400 (Found 1%nat)]
    [{["nav-link"; "active"]}; {["nav-link"]}]
  = mkHighlight [{["nav-link"; "active"]}; {["nav-link"]}] true.
Proof. reflexivity. Qed.

(** X22: when no section with a nav link is in view (above the first
    section, in a gap, or over a section without a link),
    [highlightNavLink] changes nothing: the link highlighted before stays
    highlighted. *)
Theorem no_section_in_view_keeps_links scrollY sections links :
  filter (λ s, current scrollY s = true) sections = [] →
  links_after (highlightNavLink scrollY sections links) = links.
Proof.
  intros Hnone. rewrite highlightNavLink_reached.
  apply visit_all_not_current.
  apply Forall_forall. intros s Hs%reached_sublist.
  destruct (current scrollY s) eqn:Hc; [|done].
  exfalso. eapply (filter_nil_not_elem_of _ _ s Hnone); done.
Qed.

Lemma no_section_in_view_keeps_links_witness :
  links_after (highlightNavLink 100
    [mkSection 200 600 (Found 0%nat); mkSection 800 400 (Found 1%nat)]
    [{["nav-link"]}; {["nav-link"; "active"]}])
  = [{["nav-link"]}; {["nav-link"; "active"]}].
Proof.
  apply (no_section_in_view_keeps_links 100
    [mkSection 200 600 (Found 0%nat); mkSection 800 400 (Found 1%nat)]
    [{["nav-link"]}; {["nav-link"; "active"]}]).
  by vm_compute.
Defined.

End Links.
